(** * gitifyhg: the git-remote helper for Mercurial

    A shallow embedding of [gitifyhg/gitifyhg.py]: the line protocol
    reader [GitRemoteParser] and the session object [HGRemote] with its
    command loop and its [capabilities] and [list] handlers.

    The program is Python 2: [str] is a byte string, [/] on integers is
    floor division and [%] takes the sign of the divisor, which is what
    [Z.div] and [Z.modulo] compute. *)

From Stdlib Require Import ZArith Lia Ascii String List.
From Stdlib Require Import DecimalString DecimalNat.
From stdpp Require Import base option list strings gmap.

Local Open Scope string_scope.
Local Open Scope list_scope.
Local Open Scope Z_scope.

#[local] Set Warnings "-clear-no-such-hyp".

(** ** Python built-ins used by the program *)

Module Py.

Definition code (c : ascii) : Z := Z.of_N (N_of_ascii c).

(** [str.isspace] on one byte: space, and the controls 9 to 13. *)
Definition isspace (c : ascii) : bool :=
  (code c =? 32) || ((9 <=? code c) && (code c <=? 13)).

Definition isdigit (c : ascii) : bool :=
  (48 <=? code c) && (code c <=? 57).

Definition newline : ascii := ascii_of_nat 10.

Fixpoint lstrip (s : string) : string :=
  match s with
  | String c r => if isspace c then lstrip r else s
  | EmptyString => EmptyString
  end.

Fixpoint rstrip (s : string) : string :=
  match s with
  | String c r =>
      match rstrip r with
      | EmptyString => if isspace c then EmptyString else String c EmptyString
      | t => String c t
      end
  | EmptyString => EmptyString
  end.

(** [s.strip()] *)
Definition strip (s : string) : string := rstrip (lstrip s).

(** [s.startswith(pre)] *)
Fixpoint startswith (pre s : string) : bool :=
  match pre, s with
  | EmptyString, _ => true
  | String a p, String b r => if Ascii.eqb a b then startswith p r else false
  | String _ _, EmptyString => false
  end.

(** [s.partition(sep)[-1]] for a one-byte separator: what follows the
    first [sep], the empty string when [sep] does not occur. *)
Fixpoint partition_tail (sep : ascii) (s : string) : string :=
  match s with
  | String c r => if Ascii.eqb c sep then r else partition_tail sep r
  | EmptyString => EmptyString
  end.

(** The maximal prefix of bytes satisfying [f], and the rest. *)
Fixpoint span (f : ascii -> bool) (s : string) : string * string :=
  match s with
  | String c r =>
      if f c then let (a, b) := span f r in (String c a, b)
      else (EmptyString, s)
  | EmptyString => (EmptyString, EmptyString)
  end.

(** [s.split()[0]]: the first whitespace-separated token; [None] stands
    for the [IndexError] raised when [s.split()] is empty. *)
Definition first_token (s : string) : option string :=
  match fst (span (fun c => negb (isspace c)) (lstrip s)) with
  | EmptyString => None
  | t => Some t
  end.

Fixpoint digits_val (acc : Z) (s : string) : option Z :=
  match s with
  | String c r =>
      if isdigit c then digits_val (10 * acc + (code c - 48)) r else None
  | EmptyString => Some acc
  end.

(** [int(s)] on a string, base ten: surrounding whitespace is dropped,
    one sign is allowed, at least one digit is required.  [None] stands
    for [ValueError]. *)
Definition int (s : string) : option Z :=
  match strip s with
  | EmptyString => None
  | String c r =>
      if Ascii.eqb c "+" then
        match r with EmptyString => None | _ => digits_val 0 r end
      else if Ascii.eqb c "-" then
        match r with
        | EmptyString => None
        | _ => Z.opp <$> digits_val 0 r
        end
      else digits_val 0 (String c r)
  end.

Fixpoint take (n : nat) (s : string) : string :=
  match n, s with
  | S k, String c r => String c (take k r)
  | _, _ => EmptyString
  end.

Fixpoint drop (n : nat) (s : string) : string :=
  match n, s with
  | S k, String _ r => drop k r
  | _, _ => s
  end.

(** [f.readline()]: up to and including the first newline; what is left
    when there is none; the empty string at end of input. *)
Fixpoint readline (inp : string) : string * string :=
  match inp with
  | String c r =>
      if Ascii.eqb c newline then (String c EmptyString, r)
      else let (l, rest) := readline r in (String c l, rest)
  | EmptyString => (EmptyString, EmptyString)
  end.

(** [f.read(size)]: [size] bytes, fewer at end of input; everything
    when [size] is negative. *)
Definition read (size : Z) (inp : string) : string * string :=
  if size <? 0 then (inp, EmptyString)
  else (take (Z.to_nat size) inp, drop (Z.to_nat size) inp).

End Py.

(** ** Exceptions and the state-and-error monad *)

Inductive exn : Type :=
| SystemExit (msg : string)      (* [die]: the process ends *)
| ValueError (arg : string)      (* [int] of a string that is no number *)
| IndexError                     (* [[][0]] *)
| AttributeError (name : string) (* [getattr] of a missing attribute *)
| LookupError (key : string).    (* [repo[key]] of an unknown revision *)

Inductive outcome (S A : Type) : Type :=
| Ok (a : A) (s : S)
| Raise (e : exn) (s : S).
Arguments Ok {S A} a s.
Arguments Raise {S A} e s.

Definition M (S A : Type) : Type := S -> outcome S A.

#[global] Instance M_ret {S} : MRet (M S) := fun A a s => Ok a s.
#[global] Instance M_bind {S} : MBind (M S) := fun A B f m s =>
  match m s with
  | Ok a s' => f a s'
  | Raise e s' => Raise e s'
  end.

Definition raise {S A} (e : exn) : M S A := fun s => Raise e s.
Definition get {S} : M S S := fun s => Ok s s.
Definition modify {S} (f : S -> S) : M S unit := fun s => Ok tt (f s).

(** [for x in xs: body(x)] *)
Fixpoint for_each {S A} (xs : list A) (body : A -> M S unit) : M S unit :=
  match xs with
  | [] => mret tt
  | x :: rest => body x ≫= fun _ => for_each rest body
  end.

(** ** GitRemoteParser *)

(** The parser object, together with the rest of [sys.stdin], which
    the parser reads.  [log] writes to the log only and is left out. *)
Record GitRemoteParser : Type := mkParser {
  peek_stack : list string;
  line : string;
  stdin : string;
}.

(** [sys.stdin.readline().strip()] *)
Definition stdin_readline (inp : string) : string * string :=
  let (l, rest) := Py.readline inp in (Py.strip l, rest).

Definition read_line (p : GitRemoteParser) : string * GitRemoteParser :=
  match peek_stack p with
  | l :: q => (l, mkParser q l (stdin p))
  | [] =>
      let (l, rest) := stdin_readline (stdin p) in
      (l, mkParser [] l rest)
  end.

Definition peek (p : GitRemoteParser) : string * GitRemoteParser :=
  let (l, rest) := stdin_readline (stdin p) in
  (l, mkParser (peek_stack p ++ [l]) (line p) rest).

(** [__init__]: an empty lookahead, then the first line is read. *)
Definition GitRemoteParser_init (inp : string) : GitRemoteParser :=
  snd (read_line (mkParser [] EmptyString inp)).

Definition read_mark : M GitRemoteParser Z := fun p =>
  let (l, p1) := read_line p in
  match Py.int (Py.partition_tail ":" l) with
  | Some n => Ok n p1
  | None => Raise (ValueError (Py.partition_tail ":" l)) p1
  end.

Definition read_data : M GitRemoteParser (option string) := fun p =>
  let p1 := snd (read_line p) in
  if negb (Py.startswith "data" (line p1)) then Ok None p1
  else
    match Py.int (Py.partition_tail " " (line p1)) with
    | None => Raise (ValueError (Py.partition_tail " " (line p1))) p1
    | Some size =>
        let (data, rest) := Py.read size (stdin p1) in
        Ok (Some data) (mkParser (peek_stack p1) (line p1) rest)
    end.

(** ** Regular expressions, as Python's [re] matches them

    A backtracking matcher in continuation-passing style: quantifiers are
    greedy, alternatives are tried from left to right, and a group keeps
    the text of its last successful match along the path that succeeds. *)

Inductive regex : Type :=
| Lit (s : string)                 (* literal text *)
| Char (f : ascii -> bool)         (* one byte of a class *)
| Star (f : ascii -> bool)         (* [class]* *)
| Plus (f : ascii -> bool)         (* [class]+ *)
| Seq (a b : regex)
| Alt (a b : regex)                (* a|b *)
| Opt (a : regex)                  (* (?:a)? *)
| Group (i : nat) (a : regex).     (* the i-th capturing group *)

Section Matcher.
Context {R : Type}.

Fixpoint match_star (f : ascii -> bool) (s : string)
    (k : string -> option R) : option R :=
  match s with
  | String c r =>
      if f c then
        match match_star f r k with
        | Some x => Some x
        | None => k s
        end
      else k s
  | EmptyString => k s
  end.

Fixpoint rmatch (re : regex) (s : string) (caps : gmap nat string)
    (k : string -> gmap nat string -> option R) : option R :=
  match re with
  | Lit l =>
      if Py.startswith l s then k (Py.drop (String.length l) s) caps
      else None
  | Char f =>
      match s with
      | String c r => if f c then k r caps else None
      | EmptyString => None
      end
  | Star f => match_star f s (fun s' => k s' caps)
  | Plus f =>
      match s with
      | String c r =>
          if f c then match_star f r (fun s' => k s' caps) else None
      | EmptyString => None
      end
  | Seq a b => rmatch a s caps (fun s' caps' => rmatch b s' caps' k)
  | Alt a b =>
      match rmatch a s caps k with
      | Some x => Some x
      | None => rmatch b s caps k
      end
  | Opt a =>
      match rmatch a s caps k with
      | Some x => Some x
      | None => k s caps
      end
  | Group i a =>
      rmatch a s caps (fun s' caps' =>
        k s' (<[i := Py.take (String.length s - String.length s') s]> caps'))
  end.
End Matcher.

(** [re.match(re, s)]: anchored at the start of [s], the groups that took
    part in the match. *)
Definition re_match (re : regex) (s : string) : option (gmap nat string) :=
  rmatch re s ∅ (fun _ caps => Some caps).

Definition not_angle (c : ascii) : bool :=
  negb (Ascii.eqb c "<" || Ascii.eqb c ">").
Definition is_sign (c : ascii) : bool := Ascii.eqb c "+" || Ascii.eqb c "-".

(** The pattern of [read_author], piece by piece: one of the keywords
    [author], [committer], [tagger]; optionally a space and, optionally
    again, the user (group 1, one or more bytes other than angle
    brackets); a space and an opening bracket; the email (group 2, any
    number of bytes other than angle brackets); a closing bracket and a
    space; the date (group 3, one or more digits); a space; the time
    zone (group 4, a sign and one or more digits). *)
Definition AUTHOR_RE : regex :=
  Seq (Alt (Lit "author") (Alt (Lit "committer") (Lit "tagger")))
 (Seq (Opt (Seq (Lit " ") (Opt (Group 1 (Plus not_angle)))))
 (Seq (Lit " <")
 (Seq (Group 2 (Star not_angle))
 (Seq (Lit "> ")
 (Seq (Group 3 (Plus Py.isdigit))
 (Seq (Lit " ")
      (Group 4 (Seq (Char is_sign) (Plus Py.isdigit))))))))).

(** [-((int(tz) / 100) * 3600) + ((int(tz) % 100) * 60)]: the unary minus
    applies to the hour term only. *)
Definition author_tz (tz : Z) : Z :=
  - ((tz / 100) * 3600) + ((tz mod 100) * 60).

Definition read_author : M GitRemoteParser (option (string * Z * Z)) :=
  fun p =>
  let p1 := snd (read_line p) in
  match re_match AUTHOR_RE (line p1) with
  | None => Ok None p1
  | Some groups =>
      let user := default EmptyString (groups !! 1%nat) in
      match groups !! 2%nat, groups !! 3%nat ≫= Py.int,
            groups !! 4%nat ≫= Py.int with
      | Some email, Some date, Some tz =>
          Ok (Some (user +:+ " <" +:+ email +:+ ">", date, author_tz tz)) p1
      | _, _, _ => Raise (ValueError EmptyString) p1
      end
  end.

(** ** [read_block], a generator

    A Python generator is a suspended computation: each [next] runs it up
    to the following [yield].  [GenStart] is the generator before its
    first [next], [GenYielded] the generator suspended at [yield], and
    [GenDone] the exhausted generator. *)

Inductive gen_state : Type := GenStart | GenYielded | GenDone.

Definition read_block_next (sentinel : string) (g : gen_state)
    (p : GitRemoteParser) : option string * gen_state * GitRemoteParser :=
  match g with
  | GenDone => (None, GenDone, p)
  | GenStart =>
      if decide (line p = sentinel) then (None, GenDone, p)
      else (Some (line p), GenYielded, p)
  | GenYielded =>
      (* resumed after [yield]: self.line = self.read_line() *)
      let p' := snd (read_line p) in
      if decide (line p' = sentinel) then (None, GenDone, p')
      else (Some (line p'), GenYielded, p')
  end.

(** [list(parser.read_block(sentinel))]: the generator driven to
    exhaustion by a consumer that leaves the parser alone.  The loop need
    not end, so the model takes fuel: one unit per [next]. *)
Fixpoint read_block (fuel : nat) (sentinel : string) (g : gen_state)
    (p : GitRemoteParser) : option (list string * GitRemoteParser) :=
  match fuel with
  | O => None
  | S f =>
      match read_block_next sentinel g p with
      | (None, _, p') => Some ([], p')
      | (Some l, g', p') =>
          match read_block f sentinel g' p' with
          | Some (ls, p'') => Some (l :: ls, p'')
          | None => None
          end
      end
  end.

(** ** The Mercurial repository, as the session consumes it *)

Record changectx : Type := mkCtx { rev : Z; hexnode : string }.

Definition nullrev : Z := -1.

(** Truth value of a change context: false for the null revision only. *)
Definition ctx_truth (c : changectx) : bool := negb (rev c =? nullrev).

Record Repo : Type := mkRepo {
  dirstate_branch : string;               (* repo.dirstate.branch() *)
  readcurrent : option string;            (* readcurrent(repo) *)
  repo_lookup : string -> option changectx; (* repo[key]; None: it raises *)
  repo_contains : string -> bool;         (* key in repo *)
  listbookmarks : gmap string string;     (* listbookmarks(repo) *)
  branchmap : gmap string (list string);  (* repo.branchmap() *)
  branchheads : string -> list string;    (* repo.branchheads(b, closed=True) *)
  tagslist : list (string * string);      (* repo.tagslist() *)
}.

(** Truth value of [readcurrent]'s result: a non-empty name. *)
Definition name_truth (o : option string) : bool :=
  match o with
  | Some (String _ _) => true
  | _ => false
  end.

(** ** HGRemote *)

(** The attributes of the session object that the handlers use, and with
    them the two pieces of the process's environment that the handlers
    touch: the lines written to [actual_stdout] and the set of paths that
    exist in the file system. *)
Record HGRemote : Type := mkHGRemote {
  alias : string;
  prefix : string;
  marks_git_path : string;
  repo : Repo;
  bookmarks : gmap string changectx;
  branches : gmap string (list string);
  headnode : option (string * changectx);
  stdout : list string;
  files : gset string;
}.

Definition set_stdout (f : list string -> list string) (h : HGRemote) :=
  mkHGRemote (alias h) (prefix h) (marks_git_path h) (repo h) (bookmarks h)
    (branches h) (headnode h) (f (stdout h)) (files h).
Definition set_bookmarks (b : gmap string changectx) (h : HGRemote) :=
  mkHGRemote (alias h) (prefix h) (marks_git_path h) (repo h) b
    (branches h) (headnode h) (stdout h) (files h).
Definition set_branches (b : gmap string (list string)) (h : HGRemote) :=
  mkHGRemote (alias h) (prefix h) (marks_git_path h) (repo h) (bookmarks h)
    b (headnode h) (stdout h) (files h).
Definition set_headnode (hn : string * changectx) (h : HGRemote) :=
  mkHGRemote (alias h) (prefix h) (marks_git_path h) (repo h) (bookmarks h)
    (branches h) (Some hn) (stdout h) (files h).

(** The part of [__init__] that sets the attributes above; [remotedir] is
    the directory of this remote under the Git directory. *)
Definition HGRemote_init (alias remotedir : string) (r : Repo)
    (fs : gset string) : HGRemote :=
  mkHGRemote alias ("refs/hg/" +:+ alias) (remotedir +:+ "/marks-git") r
    ∅ ∅ None [] fs.

(** Modelled from the spec: [util.output] is not among the sources; it
    writes its argument as one line to the helper's standard output, a
    blank line when called without argument. *)
Definition output (msg : string) : M HGRemote unit :=
  modify (set_stdout (fun out => out ++ [msg])).

(** Modelled from the spec: [util.die] is not among the sources; it
    reports the message to the error stream and ends the process. *)
Definition die {S A} (msg : string) : M S A := raise (SystemExit msg).

Definition do_capabilities : M HGRemote unit :=
  self ← get;
  output "import";;
  output "export";;
  output ("refspec refs/heads/branches/*:" +:+ prefix self +:+ "/branches/*");;
  output ("refspec refs/heads/*:" +:+ prefix self +:+ "/bookmarks/*");;
  output ("refspec refs/tags/*:" +:+ prefix self +:+ "/tags/*");;
  (if decide (marks_git_path self ∈ files self)
   then output ("*import-marks " +:+ marks_git_path self)
   else mret tt);;
  output ("*export-marks " +:+ marks_git_path self);;
  output "".

(** [repo[key]] *)
Definition lookup_rev (key : string) : M HGRemote changectx := fun self =>
  match repo_lookup (repo self) key with
  | Some c => Ok c self
  | None => Raise (LookupError key) self
  end.

Section Session.

(** [util.hg_to_git_spaces], [HGImporter(self, parser).process()],
    [GitExporter(self, parser).process()] and [HGMarks.store] live in
    other modules of the package. *)
Variable hg_to_git_spaces : string -> string.
Variable do_import : M (GitRemoteParser * HGRemote) unit.
Variable do_export : M (GitRemoteParser * HGRemote) unit.
Variable marks_store : M HGRemote unit.

(** The first part of [do_list]: the head and its node, or [None] where
    the source writes the blank line and returns. *)
Definition resolve_head : M HGRemote (option (string * changectx)) :=
  self ← get;
  let current_branch := dirstate_branch (repo self) in
  let head := readcurrent (repo self) in
  if name_truth head then
    node ← lookup_rev (default EmptyString head);
    mret (Some (default EmptyString head, node))
  else
    let head := current_branch in
    node ← lookup_rev ".";
    if negb (ctx_truth node) then
      if repo_contains (repo self) "default" then
        node ← lookup_rev "default";
        mret (Some (if decide (head = "default") then "master" else head,
                    node))
      else mret None
    else
      mret (Some (if decide (head = "default") then "master" else head,
                  node)).

Definition update_bookmarks : M HGRemote unit :=
  self ← get;
  for_each (map_to_list (listbookmarks (repo self))) (fun '(bookmark, node) =>
    c ← lookup_rev node;
    modify (fun h => set_bookmarks (<[bookmark := c]> (bookmarks h)) h)).

Definition update_branches : M HGRemote unit :=
  self ← get;
  for_each (map_to_list (branchmap (repo self))).*1 (fun branch =>
    let heads := branchheads (repo self) branch in
    match heads with
    | [] => mret tt
    | _ => modify (fun h => set_branches (<[branch := heads]> (branches h)) h)
    end).

Definition list_branches : M HGRemote unit :=
  self ← get;
  for_each (map_to_list (branches self)).*1 (fun branch =>
    if decide (branch ≠ "default") then
      output ("? refs/heads/branches/" +:+ hg_to_git_spaces branch)
    else output "? refs/heads/master").

Definition list_bookmarks : M HGRemote unit :=
  self ← get;
  for_each (map_to_list (bookmarks self)).*1 (fun bookmark =>
    if decide (bookmark ≠ "master") then
      output ("? refs/heads/" +:+ hg_to_git_spaces bookmark)
    else mret tt).

Definition list_tags : M HGRemote unit :=
  self ← get;
  for_each (tagslist (repo self)) (fun '(tag, node) =>
    if decide (tag ≠ "tip") then
      output ("? refs/tags/" +:+ hg_to_git_spaces tag)
    else mret tt).

Definition do_list : M HGRemote unit :=
  hn ← resolve_head;
  match hn with
  | None => output EmptyString
  | Some (head, node) =>
      modify (set_headnode (head, node));;
      update_bookmarks;;
      update_branches;;
      output ("@refs/heads/" +:+ head +:+ " HEAD");;
      list_branches;;
      list_bookmarks;;
      list_tags;;
      output EmptyString
  end.

(** ** The command loop *)

Definition on_self {A} (m : M HGRemote A) : M (GitRemoteParser * HGRemote) A :=
  fun '(parser, self) =>
    match m self with
    | Ok a self' => Ok a (parser, self')
    | Raise e self' => Raise e (parser, self')
    end.

(** [getattr(self, name)] for the handlers. *)
Definition getattr (name : string)
    : option (M (GitRemoteParser * HGRemote) unit) :=
  if decide (name = "do_capabilities") then Some (on_self do_capabilities)
  else if decide (name = "do_list") then Some (on_self do_list)
  else if decide (name = "do_import") then Some do_import
  else if decide (name = "do_export") then Some do_export
  else None.

Definition commands : list string :=
  ["capabilities"; "list"; "import"; "export"].

(** The body of the loop of [process] for one line.  The output is
    modelled unbuffered, so [actual_stdout.flush()] changes nothing. *)
Definition process_command (line : string)
    : M (GitRemoteParser * HGRemote) unit :=
  match Py.first_token line with
  | None => raise IndexError
  | Some command =>
      (if decide (command ∈ commands) then mret tt
       else die ("unhandled command: " +:+ line));;
      match getattr ("do_" +:+ command) with
      | Some handler => handler
      | None => raise (AttributeError ("do_" +:+ command))
      end
  end.

(** [for line in parser.read_block(''): ...], then [self.marks.store()].
    The handlers read from the parser between two [next]s of the
    generator.  One unit of fuel per [next]; [None] when it runs out. *)
Fixpoint process_loop (fuel : nat) (g : gen_state)
    (st : GitRemoteParser * HGRemote)
    : option (outcome (GitRemoteParser * HGRemote) unit) :=
  match fuel with
  | O => None
  | S f =>
      match read_block_next EmptyString g (fst st) with
      | (None, _, parser) => Some (on_self marks_store (parser, snd st))
      | (Some line, g', parser) =>
          match process_command line (parser, snd st) with
          | Ok _ st' => process_loop f g' st'
          | Raise e st' => Some (Raise e st')
          end
      end
  end.

Definition process (fuel : nat) (inp : string) (self : HGRemote) :=
  process_loop fuel GenStart (GitRemoteParser_init inp, self).

End Session.

(** ** Notions used to state the properties of the parser *)

(** [n] calls of [read_line] in a row, and the lines they return. *)
Fixpoint read_lines (n : nat) (p : GitRemoteParser)
    : list string * GitRemoteParser :=
  match n with
  | O => ([], p)
  | S k =>
      let (l, p1) := read_line p in
      let (ls, p2) := read_lines k p1 in (l :: ls, p2)
  end.

(** [n] calls of [peek] in a row, and the lines they return. *)
Fixpoint peeks (n : nat) (p : GitRemoteParser)
    : list string * GitRemoteParser :=
  match n with
  | O => ([], p)
  | S k =>
      let (l, p1) := peek p in
      let (ls, p2) := peeks k p1 in (l :: ls, p2)
  end.

(** A client of the parser: any interleaving of the two calls.
    [run_calls] gives the lines that its [read_line] calls return. *)
Inductive call : Type := CallPeek | CallReadLine.

Fixpoint run_calls (cs : list call) (p : GitRemoteParser)
    : list string * GitRemoteParser :=
  match cs with
  | [] => ([], p)
  | CallPeek :: rest => run_calls rest (snd (peek p))
  | CallReadLine :: rest =>
      let (l, p1) := read_line p in
      let (ls, p2) := run_calls rest p1 in (l :: ls, p2)
  end.

Fixpoint count_reads (cs : list call) : nat :=
  match cs with
  | [] => O
  | CallPeek :: rest => count_reads rest
  | CallReadLine :: rest => S (count_reads rest)
  end.

(** The first [n] lines of the underlying input. *)
Fixpoint stdin_lines (n : nat) (inp : string) : list string :=
  match n with
  | O => []
  | S k => let (l, rest) := stdin_readline inp in l :: stdin_lines k rest
  end.

(** The parser's current line after [n] further calls of [read_line]. *)
Definition line_at (n : nat) (p : GitRemoteParser) : string :=
  line (snd (read_lines n p)).

(** Every byte of [s] is in the class [f]. *)
Fixpoint string_all (f : ascii -> bool) (s : string) : bool :=
  match s with
  | String c r => f c && string_all f r
  | EmptyString => true
  end.

(** [s] starts with a byte of the class [f]. *)
Definition head_in (f : ascii -> bool) (s : string) : bool :=
  match s with
  | String c _ => f c
  | EmptyString => false
  end.

(** The decimal numeral of [n], as a [data] header carries it. *)
Definition decimal (n : nat) : string :=
  NilEmpty.string_of_uint (Nat.to_uint n).

(** ** Notions used to state the properties of the session *)

(** The session after the lines [ls] were written to its output. *)
Definition emit (ls : list string) (h : HGRemote) : HGRemote :=
  set_stdout (fun out => out ++ ls) h.

(** Modelled from the spec: [util.hg_to_git_spaces] is not among the
    sources; section 6 has every space of a name replaced by a
    placeholder sequence and does not fix the sequence, which is a
    parameter here.  The properties below hold for every escaping
    function; this one instantiates them. *)
Fixpoint escape_spaces (placeholder name : string) : string :=
  match name with
  | String c r =>
      if Ascii.eqb c " " then placeholder +:+ escape_spaces placeholder r
      else String c (escape_spaces placeholder r)
  | EmptyString => EmptyString
  end.

(** A repository without revisions, as [do_list] finds out: no current
    bookmark, the working copy at the null revision, no [default]. *)
Definition empty_repository (r : Repo) : Prop :=
  name_truth (readcurrent r) = false /\
  (exists c, repo_lookup r "." = Some c /\ ctx_truth c = false) /\
  repo_contains r "default" = false.

(** The names that the repository itself reports resolve: the current
    bookmark, the working copy's parent, [default] when the repository
    contains it, and the nodes of the bookmarks. *)
Definition repo_consistent (r : Repo) : Prop :=
  (forall b, readcurrent r = Some b -> is_Some (repo_lookup r b)) /\
  is_Some (repo_lookup r ".") /\
  (repo_contains r "default" = true -> is_Some (repo_lookup r "default")) /\
  (forall b n, listbookmarks r !! b = Some n -> is_Some (repo_lookup r n)).

Section Listed.
Variable hg_to_git_spaces : string -> string.

(** The three blocks of ref lines of a [list] response, described from
    the tables they list. *)
Definition listed_branches (bs : gmap string (list string)) : list string :=
  (fun b => if decide (b = "default") then "? refs/heads/master"
            else "? refs/heads/branches/" +:+ hg_to_git_spaces b)
  <$> (map_to_list bs).*1.

Definition listed_bookmarks (bm : gmap string changectx) : list string :=
  (fun b => "? refs/heads/" +:+ hg_to_git_spaces b)
  <$> filter (fun b => b <> "master") (map_to_list bm).*1.

Definition listed_tags (ts : list (string * string)) : list string :=
  (fun t => "? refs/tags/" +:+ hg_to_git_spaces t)
  <$> filter (fun t => t <> "tip") ts.*1.
End Listed.

(** A small repository for the examples: one revision on [default], the
    bookmarks [master] and [feature x], the tags [tip] and [v1]. *)
Definition example_repo : Repo :=
  mkRepo "default" None
    (fun key =>
       if decide (key = "." \/ key = "default" \/ key = "abc123")
       then Some (mkCtx 0 "abc123") else None)
    (fun key => bool_decide (key = "default"))
    (<["master" := "abc123"]> (<["feature x" := "abc123"]> ∅))
    (<["default" := ["abc123"]]> ∅)
    (fun b => if decide (b = "default") then ["abc123"] else [])
    [("tip", "abc123"); ("v1", "abc123")].

(** A freshly cloned repository without revisions. *)
Definition blank_repo : Repo :=
  mkRepo "default" None
    (fun key =>
       if decide (key = ".") then Some (mkCtx nullrev "000000") else None)
    (fun _ => false) ∅ ∅ (fun _ => []) [("tip", "000000")].

Definition example_session (r : Repo) : HGRemote :=
  HGRemote_init "origin" ".git/hg/0a1b" r ∅.

(** ** Notions used to state further properties of the parser *)

(** A line as [read_line] and [peek] produce it: [strip] finds nothing
    to remove. *)
Definition stripped (l : string) : Prop := Py.strip l = l.

(** The parser holds stripped lines only. *)
Definition parser_stripped (p : GitRemoteParser) : Prop :=
  Forall stripped (line p :: peek_stack p).

(** A byte other than [c]. *)
Definition is_not (c : ascii) (x : ascii) : bool := negb (Ascii.eqb x c).

(** ** Notions used to state further properties of the session *)

(** The head that [do_list] publishes: the current bookmark if there is
    one, else the current branch, [default] under the name [master]. *)
Definition published_head (r : Repo) : string :=
  match readcurrent r with
  | Some (String c b) => String c b
  | _ => if decide (dirstate_branch r = "default") then "master"
         else dirstate_branch r
  end.

(** A repository with a bookmark whose node is unknown. *)
Definition dangling_repo : Repo :=
  mkRepo "default" None
    (fun key => if decide (key = ".") then Some (mkCtx 0 "abc123") else None)
    (fun _ => false)
    (<["feature" := "ffffff"]> ∅) ∅ (fun _ => []) [].

(** A repository on the branch [stable] with the bookmark [work in
    progress] checked out. *)
Definition bookmarked_repo : Repo :=
  mkRepo "stable" (Some "work in progress")
    (fun key =>
       if decide (key = "." \/ key = "work in progress" \/ key = "abc123")
       then Some (mkCtx 3 "abc123") else None)
    (fun _ => false)
    (<["work in progress" := "abc123"]> ∅)
    (<["stable" := ["abc123"]]> ∅)
    (fun b => if decide (b = "stable") then ["abc123"] else [])
    [("tip", "abc123")].

(** The handler that the command loop runs for a line whose command is
    answered from the session alone. *)
Definition local_handler (hg_to_git_spaces : string -> string) (l : string)
    : M HGRemote unit :=
  match Py.first_token l with
  | Some c =>
      if decide (c = "capabilities") then do_capabilities
      else if decide (c = "list") then do_list hg_to_git_spaces
      else raise (AttributeError ("do_" +:+ c))
  | None => raise IndexError
  end.

(** A line of the command [capabilities] or [list]. *)
Definition local_command (l : string) : Prop :=
  Py.first_token l = Some "capabilities" \/ Py.first_token l = Some "list".

(** ** The lookahead buffer *)

Lemma last_cons_default {A} (q : list A) (a d d' : A) :
  List.last (a :: q) d = List.last (a :: q) d'.
Proof.
  revert a. induction q as [|b q IH]; intros a; [reflexivity|].
  change (List.last (b :: q) d = List.last (b :: q) d'). apply IH.
Qed.

Lemma read_lines_drain (q r : list string) (l0 inp : string) :
  read_lines (length q) (mkParser (q ++ r) l0 inp)
  = (q, mkParser r (List.last q l0) inp).
Proof.
  revert l0. induction q as [|l q IH]; intros l0; [reflexivity|].
  cbn [length read_lines app]. unfold read_line at 1. cbn [peek_stack stdin].
  rewrite IH. destruct q as [|b q]; [reflexivity|].
  by rewrite (last_cons_default (b :: q) l l0 l).
Qed.

Lemma peeks_spec (k : nat) (p : GitRemoteParser) :
  peeks k p =
  (stdin_lines k (stdin p),
   mkParser (peek_stack p ++ stdin_lines k (stdin p)) (line p)
     (snd (peeks k p)).(stdin)).
Proof.
  revert p. induction k as [|k IH]; intros p.
  - destruct p; cbn. by rewrite app_nil_r.
  - cbn [peeks stdin_lines]. unfold peek.
    destruct (stdin_readline (stdin p)) as [l rest] eqn:E.
    rewrite (IH (mkParser _ _ _)). cbn [peek_stack line stdin fst snd].
    destruct (peeks k _) as [ls p2]. cbn [snd].
    by rewrite <- app_assoc.
Qed.

Lemma stdin_lines_length (k : nat) (inp : string) :
  length (stdin_lines k inp) = k.
Proof.
  revert inp. induction k as [|k IH]; intros inp; [done|].
  cbn. destruct (stdin_readline inp). cbn. by rewrite IH.
Qed.

Lemma stdin_lines_take (k m : nat) (inp : string) :
  (k <= m)%nat -> take k (stdin_lines m inp) = stdin_lines k inp.
Proof.
  revert m inp. induction k as [|k IH]; intros m inp Hkm; [by rewrite take_0|].
  destruct m as [|m]; [lia|]. cbn. destruct (stdin_readline inp) as [l rest].
  cbn. rewrite IH; [done|lia].
Qed.

(** What [n] calls of [read_line] return: the buffered lines first, in
    the order they were peeked, then lines of the input. *)
Lemma read_lines_fst (n : nat) (p : GitRemoteParser) :
  fst (read_lines n p) = take n (peek_stack p ++ stdin_lines n (stdin p)).
Proof.
  revert p. induction n as [|n IH]; intros p; [by rewrite take_0|].
  cbn [read_lines]. unfold read_line.
  destruct p as [[|l q] l0 inp]; cbn [peek_stack stdin].
  - cbn [stdin_lines]. destruct (stdin_readline inp) as [l rest].
    specialize (IH (mkParser [] l rest)). cbn [peek_stack stdin] in IH.
    destruct (read_lines n _) as [ls p2]. cbn [fst] in *. by rewrite IH.
  - specialize (IH (mkParser q l inp)). cbn [peek_stack stdin] in IH.
    destruct (read_lines n _) as [ls p2]. cbn [fst] in *. rewrite IH.
    cbn [app take]. f_equal. rewrite !take_app. f_equal.
    rewrite !stdin_lines_take by lia. done.
Qed.

Lemma read_lines_after_peek (n : nat) (p : GitRemoteParser) :
  fst (read_lines n (snd (peek p))) = fst (read_lines n p).
Proof.
  rewrite !read_lines_fst. unfold peek.
  destruct (stdin_readline (stdin p)) as [l rest] eqn:E.
  cbn [snd peek_stack stdin]. rewrite <- app_assoc. cbn [app].
  replace (l :: stdin_lines n rest) with (stdin_lines (S n) (stdin p))
    by (cbn; by rewrite E).
  rewrite !take_app. f_equal. rewrite !stdin_lines_take by lia. done.
Qed.

Lemma run_calls_reads (cs : list call) (p : GitRemoteParser) :
  fst (run_calls cs p) = fst (read_lines (count_reads cs) p).
Proof.
  revert p. induction cs as [|[|] cs IH]; intros p; [done| |].
  - cbn [run_calls count_reads]. by rewrite IH, read_lines_after_peek.
  - cbn [run_calls count_reads read_lines].
    destruct (read_line p) as [l p1]. specialize (IH p1).
    destruct (run_calls cs p1), (read_lines _ p1). cbn in *. by rewrite IH.
Qed.

(** C8: a line returned by [peek] is returned by [read_line] once the
    lines peeked before it are drained, with nothing read from the input
    in between; and for every interleaving of [peek] and [read_line]
    calls, the [read_line] calls return the lines they would return with
    the [peek] calls left out. *)
Theorem peek_never_skips (p : GitRemoteParser) (cs : list call) :
  read_lines (S (length (peek_stack p))) (snd (peek p))
  = (peek_stack p ++ [fst (peek p)],
     mkParser [] (fst (peek p)) (stdin (snd (peek p))))
  /\ fst (run_calls cs p) = fst (read_lines (count_reads cs) p).
Proof.
  split; [|apply run_calls_reads].
  unfold peek. destruct (stdin_readline (stdin p)) as [l rest].
  cbn [fst snd stdin].
  pose proof (read_lines_drain (peek_stack p ++ [l]) [] (line p) rest) as H.
  rewrite app_nil_r, length_app, Nat.add_comm in H. cbn [length Nat.add] in H.
  rewrite H. by rewrite last_last.
Qed.

(** The buffer is a queue whatever it holds: lines peeked earlier come
    out first, then the newly peeked ones, all in the order of the
    [peek] calls. *)
Lemma peeks_then_reads (k : nat) (p : GitRemoteParser) :
  fst (read_lines (length (peek_stack p) + k) (snd (peeks k p)))
  = peek_stack p ++ fst (peeks k p)
  /\ stdin (snd (read_lines (length (peek_stack p) + k) (snd (peeks k p))))
     = stdin (snd (peeks k p)).
Proof.
  rewrite peeks_spec. cbn [fst snd].
  pose proof (read_lines_drain (peek_stack p ++ stdin_lines k (stdin p)) []
                (line p) (stdin (snd (peeks k p)))) as H.
  rewrite app_nil_r, length_app, stdin_lines_length in H.
  by rewrite H.
Qed.

(** C10: from an empty buffer, [k] calls of [peek] in a row followed by
    [k] calls of [read_line] give the same [k] lines in the same order,
    the input is not read during the [read_line] calls, and the buffer
    is empty again afterwards: no peeked line is returned twice. *)
Theorem peek_stack_fifo (k : nat) (p : GitRemoteParser) :
  peek_stack p = [] ->
  length (fst (peeks k p)) = k /\
  exists p2,
    read_lines k (snd (peeks k p)) = (fst (peeks k p), p2) /\
    stdin p2 = stdin (snd (peeks k p)) /\ peek_stack p2 = [].
Proof.
  intros Hq. rewrite peeks_spec. cbn [fst snd]. rewrite Hq. cbn [app].
  split; [apply stdin_lines_length|].
  eexists. split; [|split].
  - pose proof (read_lines_drain (stdin_lines k (stdin p)) [] (line p)
      (stdin (snd (peeks k p)))) as H.
    rewrite app_nil_r, stdin_lines_length in H. exact H.
  - done.
  - done.
Qed.

Lemma peek_stack_fifo_witness :
  let p := mkParser [] ""
             ("a" +:+ String Py.newline ("b" +:+ String Py.newline "c")) in
  peek_stack p = [] /\
  length (fst (peeks 2 p)) = 2%nat /\
  exists p2,
    read_lines 2 (snd (peeks 2 p)) = (fst (peeks 2 p), p2) /\
    stdin p2 = stdin (snd (peeks 2 p)) /\ peek_stack p2 = [].
Proof. split; [reflexivity | apply (peek_stack_fifo 2); reflexivity]. Defined.

(** ** [read_block] *)

Lemma line_at_S (n : nat) (p : GitRemoteParser) :
  line_at (S n) p = line_at n (snd (read_line p)).
Proof.
  unfold line_at. cbn [read_lines]. destruct (read_line p) as [l p1].
  cbn [snd]. by destruct (read_lines n p1).
Qed.

Lemma read_lines_S_snd (n : nat) (p : GitRemoteParser) :
  snd (read_lines (S n) p) = snd (read_lines n (snd (read_line p))).
Proof.
  cbn [read_lines]. destruct (read_line p) as [l p1].
  cbn [snd]. by destruct (read_lines n p1).
Qed.

(** The generator resumed after a [yield]. *)
Lemma read_block_resumed (sentinel : string) (n : nat) :
  forall (p : GitRemoteParser) (fuel : nat),
  line_at (S n) p = sentinel ->
  (forall i, (1 <= i < S n)%nat -> line_at i p <> sentinel) ->
  (n < fuel)%nat ->
  read_block fuel sentinel GenYielded p
  = Some (map (fun i => line_at i p) (seq 1 n), snd (read_lines (S n) p)).
Proof.
  induction n as [|n IH]; intros p fuel Hn Hlt Hfuel;
    (destruct fuel as [|fuel]; [lia|]); cbn [read_block read_block_next].
  - rewrite line_at_S in Hn. unfold line_at in Hn. cbn in Hn.
    rewrite decide_True by done. rewrite read_lines_S_snd. done.
  - assert (line (snd (read_line p)) <> sentinel) as Hne.
    { specialize (Hlt 1%nat). rewrite line_at_S in Hlt. apply Hlt. lia. }
    rewrite decide_False by done.
    rewrite (IH (snd (read_line p)) fuel).
    + rewrite (read_lines_S_snd (S n)). do 2 f_equal.
      cbn [seq map]. rewrite line_at_S. f_equal.
      rewrite <- (seq_shift n 1), map_map. apply map_ext. intros i.
      by rewrite line_at_S.
    + by rewrite <- line_at_S.
    + intros i Hi. rewrite <- line_at_S. apply Hlt. lia.
    + lia.
Qed.

(** C7: when the first line equal to the sentinel is [n] lines ahead of
    the parser's current line, [read_block], given fuel for more than
    [n] steps, yields the current line and the lines after it up to that
    line, in order and without it, and leaves the parser with the
    sentinel as its current line. *)
Theorem read_block_until_sentinel (sentinel : string) (p : GitRemoteParser)
    (n fuel : nat) :
  line_at n p = sentinel ->
  (forall i, (i < n)%nat -> line_at i p <> sentinel) ->
  (n < fuel)%nat ->
  read_block fuel sentinel GenStart p
  = Some (map (fun i => line_at i p) (seq 0 n), snd (read_lines n p))
  /\ line (snd (read_lines n p)) = sentinel.
Proof.
  intros Hn Hlt Hfuel. split; [|exact Hn].
  destruct fuel as [|fuel]; [lia|]. cbn [read_block read_block_next].
  destruct n as [|n].
  - unfold line_at in Hn. cbn in Hn. by rewrite decide_True.
  - assert (line p <> sentinel) as Hne by (apply (Hlt 0%nat); lia).
    rewrite decide_False by done.
    rewrite (read_block_resumed sentinel n p fuel); [done|done| |lia].
    intros i Hi. apply Hlt. lia.
Qed.

Lemma read_block_until_sentinel_witness :
  let p := GitRemoteParser_init
             ("capabilities" +:+ String Py.newline
               ("list" +:+ String Py.newline (String Py.newline "import x"))) in
  read_block 5 "" GenStart p
  = Some (map (fun i => line_at i p) (seq 0 2), snd (read_lines 2 p))
  /\ line (snd (read_lines 2 p)) = "".
Proof.
  apply (read_block_until_sentinel "" _ 2 5).
  - reflexivity.
  - intros i Hi.
    destruct i as [|[|i]]; [vm_compute; discriminate ..|lia].
  - lia.
Defined.

(** At the end of the input [read_line] returns the empty line, so a
    block closed by the empty line always ends. *)

Lemma read_lines_add (a b : nat) (p : GitRemoteParser) :
  snd (read_lines (a + b) p) = snd (read_lines b (snd (read_lines a p))).
Proof.
  revert p. induction a as [|a IH]; intros p; [done|].
  change (S a + b)%nat with (S (a + b)). by rewrite !read_lines_S_snd, IH.
Qed.

Lemma readline_shorter (inp : string) :
  inp <> "" ->
  (String.length (snd (Py.readline inp)) < String.length inp)%nat.
Proof.
  induction inp as [|c r IH]; [done|]. intros _. cbn [Py.readline].
  destruct (Ascii.eqb c Py.newline); [cbn; lia|].
  destruct r as [|c' r']; [cbn; lia|].
  specialize (IH ltac:(done)). destruct (Py.readline (String c' r')).
  cbn [snd String.length] in *. lia.
Qed.

Lemma empty_line_ahead_of_input (inp : string) :
  forall l0, exists m, line_at m (mkParser [] l0 inp) = "".
Proof.
  remember (String.length inp) as n eqn:Hn. revert inp Hn.
  induction n as [n IH] using lt_wf_ind. intros inp Hn l0.
  destruct inp as [|c r].
  - exists 1%nat. reflexivity.
  - pose proof (readline_shorter (String c r) ltac:(done)) as Hlt.
    destruct (Py.readline (String c r)) as [l rest] eqn:E. cbn [snd] in Hlt.
    destruct (IH (String.length rest) ltac:(lia) rest eq_refl (Py.strip l))
      as [m Hm].
    exists (S m). rewrite line_at_S. unfold read_line, stdin_readline.
    cbn [peek_stack stdin]. by rewrite E.
Qed.

Lemma empty_line_ahead (p : GitRemoteParser) : exists m, line_at m p = "".
Proof.
  destruct p as [q l0 inp].
  destruct (empty_line_ahead_of_input inp (List.last q l0)) as [m Hm].
  exists (length q + m)%nat. unfold line_at. rewrite read_lines_add.
  pose proof (read_lines_drain q [] l0 inp) as H. rewrite app_nil_r in H.
  by rewrite H.
Qed.

Lemma first_sentinel (sentinel : string) (m : nat) :
  forall p, line_at m p = sentinel ->
  exists n, line_at n p = sentinel /\
    forall i, (i < n)%nat -> line_at i p <> sentinel.
Proof.
  induction m as [|m IH]; intros p Hm.
  - exists 0%nat. split; [done|]. intros i Hi. lia.
  - destruct (decide (line p = sentinel)) as [H0|H0].
    + exists 0%nat. split; [done|]. intros i Hi. lia.
    + rewrite line_at_S in Hm. destruct (IH _ Hm) as (n & Hn & Hlt).
      exists (S n). split; [by rewrite line_at_S|].
      intros [|i] Hi; [done|]. rewrite line_at_S. apply Hlt. lia.
Qed.

(** [list(parser.read_block(''))] returns, whatever the input. *)
Lemma read_block_empty_sentinel_returns (p : GitRemoteParser) :
  exists fuel ls p',
    read_block fuel "" GenStart p = Some (ls, p') /\ line p' = "".
Proof.
  destruct (empty_line_ahead p) as [m Hm].
  destruct (first_sentinel "" m p Hm) as (n & Hn & Hlt).
  exists (S n). destruct n as [|n].
  - exists [], p. cbn [read_block read_block_next].
    unfold line_at in Hn. cbn in Hn. by rewrite decide_True.
  - exists (map (fun i => line_at i p) (seq 0 (S n))),
      (snd (read_lines (S n) p)).
    split; [|exact Hn].
    change (read_block (S (S n)) "" GenStart p)
      with (match read_block_next "" GenStart p with
            | (None, _, p') => Some ([], p')
            | (Some l, g', p') =>
                match read_block (S n) "" g' p' with
                | Some (ls, p'') => Some (l :: ls, p'')
                | None => None
                end
            end).
    cbn [read_block_next].
    rewrite decide_False by (apply (Hlt 0%nat); lia).
    rewrite (read_block_resumed "" n p (S n)); [done|done| |lia].
    intros i Hi. apply Hlt. lia.
Qed.

(** A line read from the input is empty or starts with a token. *)
Lemma lstrip_head (s : string) : head_in Py.isspace (Py.lstrip s) = false.
Proof.
  induction s as [|c r IH]; [done|]. cbn [Py.lstrip].
  destruct (Py.isspace c) eqn:Hc; [done|]. cbn. exact Hc.
Qed.

Lemma strip_head (s : string) : head_in Py.isspace (Py.strip s) = false.
Proof.
  unfold Py.strip. pose proof (lstrip_head s) as H.
  destruct (Py.lstrip s) as [|c r]; [done|]. cbn in H. cbn [Py.rstrip].
  destruct (Py.rstrip r); [by rewrite H|done].
Qed.

Lemma first_token_stripped (s : string) :
  Py.strip s <> "" -> is_Some (Py.first_token (Py.strip s)).
Proof.
  intros Hne. pose proof (strip_head s) as H.
  destruct (Py.strip s) as [|c r]; [done|]. cbn in H.
  unfold Py.first_token. cbn [Py.lstrip]. rewrite H. cbn [Py.span].
  rewrite H. cbn [negb]. destruct (Py.span _ r). by eexists.
Qed.

(** ** [read_data] *)

Lemma isdigit_not_space (c : ascii) :
  Py.isdigit c = true -> Py.isspace c = false.
Proof.
  unfold Py.isdigit, Py.isspace. intros H.
  apply andb_true_iff in H as [H1 H2]. apply Z.leb_le in H1, H2.
  apply orb_false_iff. split; [apply Z.eqb_neq; lia|].
  apply andb_false_iff. right. apply Z.leb_gt. lia.
Qed.

Lemma digits_val_strip (s : string) :
  forall acc v, Py.digits_val acc s = Some v -> Py.strip s = s.
Proof.
  unfold Py.strip. induction s as [|c r IH]; intros acc v H; [done|].
  cbn in H. destruct (Py.isdigit c) eqn:Hc; [|done].
  apply isdigit_not_space in Hc. cbn [Py.lstrip]. rewrite Hc.
  cbn [Py.rstrip]. specialize (IH _ _ H).
  destruct r as [|c' r']; [by rewrite Hc|].
  cbn in H. destruct (Py.isdigit c') eqn:Hc'; [|done].
  apply isdigit_not_space in Hc'. cbn [Py.lstrip] in IH. rewrite Hc' in IH.
  by rewrite IH.
Qed.

Lemma int_digits (s : string) (v : Z) :
  s <> EmptyString -> Py.digits_val 0 s = Some v -> Py.int s = Some v.
Proof.
  intros Hne H. unfold Py.int. rewrite (digits_val_strip s 0 v H).
  destruct s as [|c r]; [done|]. clear Hne.
  assert (Py.isdigit c = true) as Hc.
  { cbn in H. by destruct (Py.isdigit c). }
  destruct (Ascii.eqb c "+") eqn:E1.
  { apply Ascii.eqb_eq in E1. subst c. discriminate Hc. }
  destruct (Ascii.eqb c "-") eqn:E2.
  { apply Ascii.eqb_eq in E2. subst c. discriminate Hc. }
  exact H.
Qed.

Lemma digits_val_of_uint (d : Decimal.uint) :
  forall acc, 0 <= acc ->
  Py.digits_val acc (NilEmpty.string_of_uint d)
  = Some (Z.of_nat (Nat.of_uint_acc d (Z.to_nat acc))).
Proof.
  induction d as [|d IH|d IH|d IH|d IH|d IH|d IH|d IH|d IH|d IH|d IH];
    intros acc Hacc; cbn [NilEmpty.string_of_uint Nat.of_uint_acc];
    [by rewrite Z2Nat.id| ..];
    (cbn [Py.digits_val];
     match goal with
     | |- context [Py.isdigit ?c] =>
         change (Py.isdigit c) with true;
         let v := eval vm_compute in (Py.code c - 48) in
         change (Py.code c - 48) with v
     end;
     rewrite IH by lia; do 3 f_equal;
     rewrite Nat.tail_mul_spec; lia).
Qed.

Lemma int_decimal (n : nat) : Py.int (decimal n) = Some (Z.of_nat n).
Proof.
  unfold decimal. apply int_digits.
  - destruct (Nat.to_uint n) eqn:E; [|discriminate ..].
    pose proof (Unsigned.of_to n) as H. rewrite E in H. cbn in H.
    subst n. discriminate E.
  - rewrite digits_val_of_uint by lia. change (Z.to_nat 0) with O.
    change (Nat.of_uint_acc (Nat.to_uint n) 0)
      with (Nat.of_uint (Nat.to_uint n)).
    by rewrite Unsigned.of_to.
Qed.

Lemma take_drop_string (n : nat) (s : string) :
  Py.take n s +:+ Py.drop n s = s.
Proof.
  revert s. induction n as [|n IH]; intros [|c r]; try reflexivity.
  change (String c (Py.take n r +:+ Py.drop n r) = String c r).
  f_equal. apply IH.
Qed.

Lemma take_string_length (n : nat) (s : string) :
  (n <= String.length s)%nat -> String.length (Py.take n s) = n.
Proof.
  revert s. induction n as [|n IH]; intros [|c r] H; cbn in *;
    try done; try lia.
  rewrite IH; lia.
Qed.

(** C6: [read_data] consumes one line with [read_line]; when that line
    does not start with [data] the result is [None] and the line stays
    the parser's current line; when it is [data N] the result is the next
    [N] bytes of the input, which are consumed. *)
Theorem read_data_spec (p : GitRemoteParser) :
  let p1 := snd (read_line p) in
  (Py.startswith "data" (line p1) = false -> read_data p = Ok None p1) /\
  (forall n : nat, line p1 = "data " +:+ decimal n ->
     read_data p
     = Ok (Some (Py.take n (stdin p1)))
          (mkParser (peek_stack p1) (line p1) (Py.drop n (stdin p1)))
     /\ Py.take n (stdin p1) +:+ Py.drop n (stdin p1) = stdin p1
     /\ ((n <= String.length (stdin p1))%nat ->
         String.length (Py.take n (stdin p1)) = n)).
Proof.
  intros p1. split.
  - intros H. unfold read_data. fold p1. by rewrite H.
  - intros n Hl. split; [|split].
    + unfold read_data. fold p1. rewrite Hl.
      change (Py.startswith "data" ("data " +:+ decimal n)) with true.
      change (Py.partition_tail " " ("data " +:+ decimal n)) with (decimal n).
      cbn [negb]. rewrite int_decimal. unfold Py.read.
      destruct (Z.ltb_spec (Z.of_nat n) 0) as [?|_]; [lia|].
      by rewrite Nat2Z.id.
    + apply take_drop_string.
    + apply take_string_length.
Qed.

Lemma read_data_spec_witness :
  let p := mkParser [] "" ("data 5" +:+ String Py.newline "hello world") in
  let p1 := snd (read_line p) in
  line p1 = "data " +:+ decimal 5 /\
  read_data p
  = Ok (Some (Py.take 5 (stdin p1)))
       (mkParser (peek_stack p1) (line p1) (Py.drop 5 (stdin p1))).
Proof.
  split; [reflexivity|].
  apply (proj2 (read_data_spec
    (mkParser [] "" ("data 5" +:+ String Py.newline "hello world"))) 5%nat).
  reflexivity.
Defined.

(** ** [read_author] *)

Lemma author_tz_east (hh mm : Z) :
  0 <= mm < 100 -> author_tz (hh * 100 + mm) = - (hh * 3600) + mm * 60.
Proof.
  intros H. unfold author_tz.
  assert ((hh * 100 + mm) / 100 = hh) as ->
    by (rewrite Z.div_add_l, Z.div_small; lia).
  assert ((hh * 100 + mm) mod 100 = mm) as ->
    by (rewrite (Z.add_comm (hh * 100)), Z.mod_add, Z.mod_small; lia).
  lia.
Qed.

(** Where the result is the negated field in seconds: whole hours only. *)
Lemma author_tz_negated_iff (hh mm : Z) :
  0 <= mm < 100 ->
  author_tz (hh * 100 + mm) = - (hh * 3600 + mm * 60) <-> mm = 0.
Proof. intros H. rewrite author_tz_east by done. lia. Qed.

(** *** The matcher on a well-formed author line *)

Lemma startswith_app (l s : string) : Py.startswith l (l +:+ s) = true.
Proof.
  induction l as [|c l IH]; [by destruct s|].
  change (String c l +:+ s) with (String c (l +:+ s)).
  cbn [Py.startswith]. by rewrite Ascii.eqb_refl.
Qed.

Lemma drop_app (l s : string) : Py.drop (String.length l) (l +:+ s) = s.
Proof. induction l as [|c l IH]; [by destruct s|exact IH]. Qed.

Lemma string_length_app (a b : string) :
  String.length (a +:+ b) = (String.length a + String.length b)%nat.
Proof.
  induction a as [|c a IH]; [done|].
  change (S (String.length (a +:+ b)) = S (String.length a + String.length b)).
  by rewrite IH.
Qed.

Lemma take_app_consumed (a b : string) :
  Py.take (String.length (a +:+ b) - String.length b) (a +:+ b) = a.
Proof.
  rewrite string_length_app.
  replace (String.length a + String.length b - String.length b)%nat
    with (String.length a) by lia.
  induction a as [|c a IH]; [by destruct b|].
  change (String c (Py.take (String.length a) (a +:+ b)) = String c a).
  by rewrite IH.
Qed.

Lemma rmatch_Lit_app {R} (l s : string) caps
    (k : string -> gmap nat string -> option R) :
  rmatch (Lit l) (l +:+ s) caps k = k s caps.
Proof. cbn [rmatch]. by rewrite startswith_app, drop_app. Qed.

Section MatchStar.
Context {R : Type} (f : ascii -> bool) (k : string -> option R).

Lemma match_star_stop (b : string) :
  head_in f b = false -> match_star f b k = k b.
Proof. destruct b as [|c r]; [done|]. cbn. by intros ->. Qed.

(** The greedy match succeeds at the longest run of the class. *)
Lemma match_star_greedy (a b : string) (x : R) :
  string_all f a = true -> head_in f b = false -> k b = Some x ->
  match_star f (a +:+ b) k = Some x.
Proof.
  intros Ha Hb Hk. induction a as [|c a IH].
  - change (match_star f b k = Some x). by rewrite match_star_stop.
  - cbn [string_all] in Ha. apply andb_true_iff in Ha as [Hc Ha].
    change (match_star f (String c (a +:+ b)) k = Some x).
    cbn [match_star]. by rewrite Hc, IH.
Qed.

(** When the continuation fails after the longest run and succeeds one
    byte earlier, the match gives that byte back. *)
Lemma match_star_back_one (a b : string) (c : ascii) (x : R) :
  string_all f a = true -> f c = true -> head_in f b = false ->
  k b = None -> k (String c b) = Some x ->
  match_star f (a +:+ String c b) k = Some x.
Proof.
  intros Ha Hc Hb Hk Hk'. induction a as [|d a IH].
  - change (match_star f (String c b) k = Some x).
    cbn [match_star]. by rewrite Hc, match_star_stop, Hk.
  - cbn [string_all] in Ha. apply andb_true_iff in Ha as [Hd Ha].
    change (match_star f (String d (a +:+ String c b)) k = Some x).
    cbn [match_star]. by rewrite Hd, IH.
Qed.
End MatchStar.

Lemma digits_val_all (s : string) :
  forall acc v, Py.digits_val acc s = Some v -> string_all Py.isdigit s = true.
Proof.
  induction s as [|c r IH]; intros acc v H; [done|].
  cbn in H. cbn [string_all]. destruct (Py.isdigit c); [|done]. by eapply IH.
Qed.

Lemma string_all_app (f : ascii -> bool) (a b : string) :
  string_all f a = true -> string_all f b = true ->
  string_all f (a +:+ b) = true.
Proof.
  intros Ha Hb. induction a as [|c a IH]; [done|].
  cbn [string_all] in Ha. apply andb_true_iff in Ha as [Hc Ha].
  change (f c && string_all f (a +:+ b) = true). by rewrite Hc, IH.
Qed.

Section MatchRules.
Context {R : Type}.
Implicit Types (k : string -> gmap nat string -> option R).

Lemma rmatch_Seq a b s caps k :
  rmatch (Seq a b) s caps k
  = rmatch a s caps (fun s' caps' => rmatch b s' caps' k).
Proof. reflexivity. Qed.

Lemma rmatch_Group i a s caps k :
  rmatch (Group i a) s caps k
  = rmatch a s caps (fun s' caps' =>
      k s' (<[i := Py.take (String.length s - String.length s') s]> caps')).
Proof. reflexivity. Qed.

Lemma rmatch_Opt_taken a s caps k (x : R) :
  rmatch a s caps k = Some x -> rmatch (Opt a) s caps k = Some x.
Proof. intros H. cbn [rmatch]. by rewrite H. Qed.

Lemma rmatch_Alt_left a b s caps k (x : R) :
  rmatch a s caps k = Some x -> rmatch (Alt a b) s caps k = Some x.
Proof. intros H. cbn [rmatch]. by rewrite H. Qed.

Lemma rmatch_Alt_right l b s caps k :
  Py.startswith l s = false ->
  rmatch (Alt (Lit l) b) s caps k = rmatch b s caps k.
Proof. intros H. cbn [rmatch]. by rewrite H. Qed.

Lemma rmatch_Char f c r caps k :
  f c = true -> rmatch (Char f) (String c r) caps k = k r caps.
Proof. intros H. cbn [rmatch]. by rewrite H. Qed.

Lemma rmatch_Star_greedy f a b caps k (x : R) :
  string_all f a = true -> head_in f b = false -> k b caps = Some x ->
  rmatch (Star f) (a +:+ b) caps k = Some x.
Proof. intros. cbn [rmatch]. by apply match_star_greedy. Qed.

Lemma rmatch_Plus_greedy f c a b caps k (x : R) :
  f c = true -> string_all f a = true -> head_in f b = false ->
  k b caps = Some x ->
  rmatch (Plus f) (String c a +:+ b) caps k = Some x.
Proof.
  intros Hc Ha Hb Hk. change (String c a +:+ b) with (String c (a +:+ b)).
  cbn [rmatch]. rewrite Hc. by apply match_star_greedy.
Qed.

Lemma rmatch_Plus_back_one f c a d b caps k (x : R) :
  f c = true -> string_all f a = true -> f d = true ->
  head_in f b = false -> k b caps = None -> k (String d b) caps = Some x ->
  rmatch (Plus f) (String c a +:+ String d b) caps k = Some x.
Proof.
  intros Hc Ha Hd Hb Hk Hk'.
  change (String c a +:+ String d b) with (String c (a +:+ String d b)).
  cbn [rmatch]. rewrite Hc. by apply match_star_back_one.
Qed.
End MatchRules.

(** What [AUTHOR_RE] captures on a well-formed line. *)
Lemma author_re_match (kw user email date tzd rest : string) (sign : ascii) :
  kw ∈ ["author"; "committer"; "tagger"] ->
  user <> "" -> string_all not_angle user = true ->
  string_all not_angle email = true ->
  date <> "" -> string_all Py.isdigit date = true ->
  is_sign sign = true ->
  tzd <> "" -> string_all Py.isdigit tzd = true ->
  head_in Py.isdigit rest = false ->
  re_match AUTHOR_RE
    (kw +:+ " " +:+ user +:+ " <" +:+ email +:+ "> " +:+ date +:+ " "
     +:+ String sign tzd +:+ rest)
  = Some (<[4%nat := String sign tzd]> (<[3%nat := date]>
            (<[2%nat := email]> (<[1%nat := user]> ∅)))).
Proof.
  intros Hkw Hu Hua Hea Hd Hda Hs Ht Hta Hrest.
  destruct user as [|u0 user]; [done|]. clear Hu.
  destruct date as [|d0 date]; [done|]. clear Hd.
  destruct tzd as [|t0 tzd]; [done|]. clear Ht.
  cbn [string_all] in Hua, Hda, Hta.
  apply andb_true_iff in Hua as [Hu0 Hua].
  apply andb_true_iff in Hda as [Hd0 Hda].
  apply andb_true_iff in Hta as [Ht0 Hta].
  unfold re_match, AUTHOR_RE.
  match goal with
  | |- rmatch (Seq ?kws ?fields) _ _ _ = _ => set (FIELDS := fields)
  end.
  rewrite rmatch_Seq.
  assert (rmatch FIELDS
            (" " +:+ String u0 user +:+ " <" +:+ email +:+ "> "
             +:+ String d0 date +:+ " " +:+ String sign (String t0 tzd)
             +:+ rest)
            ∅ (fun _ caps => Some caps)
          = Some (<[4%nat := String sign (String t0 tzd)]>
                    (<[3%nat := String d0 date]>
                       (<[2%nat := email]> (<[1%nat := String u0 user]> ∅)))))
    as Hfields.
  { subst FIELDS. rewrite rmatch_Seq. apply rmatch_Opt_taken.
    rewrite rmatch_Seq, rmatch_Lit_app. apply rmatch_Opt_taken.
    rewrite rmatch_Group.
    apply (rmatch_Plus_back_one not_angle u0 user " "
             ("<" +:+ email +:+ "> " +:+ String d0 date +:+ " "
              +:+ String sign (String t0 tzd) +:+ rest));
      [done|done|done|done|reflexivity|].
    change (String " " ("<" +:+ ?x)) with (" <" +:+ x).
    rewrite (take_app_consumed (String u0 user)).
    rewrite rmatch_Seq, rmatch_Lit_app, rmatch_Seq, rmatch_Group.
    apply rmatch_Star_greedy; [done|done|].
    rewrite (take_app_consumed email).
    rewrite rmatch_Seq, rmatch_Lit_app, rmatch_Seq, rmatch_Group.
    apply rmatch_Plus_greedy; [done|done|done|].
    rewrite (take_app_consumed (String d0 date)).
    rewrite rmatch_Seq, rmatch_Lit_app, rmatch_Group, rmatch_Seq.
    change (String sign (String t0 tzd) +:+ rest)
      with (String sign (String t0 tzd +:+ rest)).
    rewrite rmatch_Char by done.
    apply rmatch_Plus_greedy; [done|done|done|].
    change (String sign (String t0 tzd +:+ rest))
      with (String sign (String t0 tzd) +:+ rest).
    by rewrite (take_app_consumed (String sign (String t0 tzd))). }
  repeat (apply elem_of_cons in Hkw as [->|Hkw]);
    [| | |by apply elem_of_nil in Hkw].
  - apply rmatch_Alt_left. by rewrite rmatch_Lit_app.
  - rewrite rmatch_Alt_right by reflexivity.
    apply rmatch_Alt_left. by rewrite rmatch_Lit_app.
  - rewrite rmatch_Alt_right by reflexivity.
    rewrite rmatch_Alt_right by reflexivity.
    by rewrite rmatch_Lit_app.
Qed.

Lemma rstrip_digits (s : string) (acc v : Z) :
  Py.digits_val acc s = Some v -> Py.rstrip s = s.
Proof.
  revert acc. induction s as [|c r IH]; intros acc H; [done|].
  cbn in H. destruct (Py.isdigit c) eqn:Hc; [|done].
  cbn [Py.rstrip]. rewrite (IH _ H).
  destruct r; [by rewrite (isdigit_not_space c Hc)|done].
Qed.

Lemma int_signed (sign : ascii) (tzd : string) (t : Z) :
  is_sign sign = true -> tzd <> "" -> Py.digits_val 0 tzd = Some t ->
  Py.int (String sign tzd)
  = Some (if Ascii.eqb sign "-" then - t else t).
Proof.
  intros Hs Hne Ht. unfold is_sign in Hs. apply orb_true_iff in Hs.
  assert (Py.strip (String sign tzd) = String sign tzd) as Hstrip.
  { unfold Py.strip.
    assert (Py.isspace sign = false) as Hsp
      by (destruct Hs as [Hs|Hs]; apply Ascii.eqb_eq in Hs; by subst sign).
    cbn [Py.lstrip]. rewrite Hsp. cbn [Py.rstrip].
    rewrite (rstrip_digits tzd 0 t Ht). by destruct tzd. }
  unfold Py.int. rewrite Hstrip.
  destruct Hs as [Hs|Hs]; apply Ascii.eqb_eq in Hs; subst sign; cbn.
  - by destruct tzd.
  - destruct tzd; [done|]. by rewrite Ht.
Qed.

(** On a well-formed line [read_author] returns the user with the
    email, the date, and [author_tz] of the signed time-zone field. *)
Lemma read_author_well_formed (p : GitRemoteParser)
    (kw user email date tzd rest : string) (sign : ascii) (d t : Z) :
  kw ∈ ["author"; "committer"; "tagger"] ->
  user <> "" -> string_all not_angle user = true ->
  string_all not_angle email = true ->
  date <> "" -> Py.digits_val 0 date = Some d ->
  is_sign sign = true ->
  tzd <> "" -> Py.digits_val 0 tzd = Some t ->
  head_in Py.isdigit rest = false ->
  line (snd (read_line p))
  = kw +:+ " " +:+ user +:+ " <" +:+ email +:+ "> " +:+ date +:+ " "
    +:+ String sign tzd +:+ rest ->
  read_author p
  = Ok (Some (user +:+ " <" +:+ email +:+ ">", d,
              author_tz (if Ascii.eqb sign "-" then - t else t)))
       (snd (read_line p)).
Proof.
  intros Hkw Hu Hua Hea Hd Hdv Hs Ht Htv Hrest Hline.
  unfold read_author. rewrite Hline.
  rewrite (author_re_match kw user email date tzd rest sign); try done;
    [|by eapply digits_val_all..].
  set (caps := <[4%nat := String sign tzd]> _).
  assert (caps !! 1%nat = Some user) as -> by (subst caps; by simplify_map_eq).
  assert (caps !! 2%nat = Some email) as -> by (subst caps; by simplify_map_eq).
  assert (caps !! 3%nat = Some date) as -> by (subst caps; by simplify_map_eq).
  assert (caps !! 4%nat = Some (String sign tzd)) as ->
    by (subst caps; by simplify_map_eq).
  cbn [default from_option id mbind option_bind].
  by rewrite (int_digits date d Hd Hdv), (int_signed sign tzd t Hs Ht Htv).
Qed.

(** So every line with a field [+HHMM] gets the hours negated and the
    minutes added. *)
Lemma read_author_east (p : GitRemoteParser)
    (kw user email date tzd rest : string) (d hh mm : Z) :
  kw ∈ ["author"; "committer"; "tagger"] ->
  user <> "" -> string_all not_angle user = true ->
  string_all not_angle email = true ->
  date <> "" -> Py.digits_val 0 date = Some d ->
  tzd <> "" -> Py.digits_val 0 tzd = Some (hh * 100 + mm) -> 0 <= mm < 100 ->
  head_in Py.isdigit rest = false ->
  line (snd (read_line p))
  = kw +:+ " " +:+ user +:+ " <" +:+ email +:+ "> " +:+ date +:+ " "
    +:+ String "+" tzd +:+ rest ->
  read_author p
  = Ok (Some (user +:+ " <" +:+ email +:+ ">", d, - (hh * 3600) + mm * 60))
       (snd (read_line p)).
Proof.
  intros Hkw Hu Hua Hea Hd Hdv Ht Htv Hmm Hrest Hline.
  rewrite (read_author_well_formed p kw user email date tzd rest "+" d
             (hh * 100 + mm)); try done.
  cbn [Ascii.eqb Bool.eqb]. by rewrite author_tz_east.
Qed.

(** C1: on the line [author A U Thor <author@example.com> 1357000000
    +0530] the offset returned by [read_author] is -16200, the hours
    negated and the minutes added, and not -19800, the negation of five
    hours and thirty minutes in seconds. *)
Theorem read_author_minutes_not_negated :
  read_author
    (mkParser [] ""
       ("author A U Thor <author@example.com> 1357000000 +0530"
        +:+ String Py.newline ""))
  = Ok (Some ("A U Thor <author@example.com>", 1357000000, -16200))
       (mkParser []
          "author A U Thor <author@example.com> 1357000000 +0530" "")
  /\ -16200 <> - (5 * 3600 + 30 * 60).
Proof. split; [vm_compute; reflexivity | lia]. Qed.

(** ** [do_capabilities] *)

Lemma bind_run {S A B} (m : M S A) (f : A -> M S B) (s : S) :
  (m ≫= f) s
  = match m s with Ok a s' => f a s' | Raise e s' => Raise e s' end.
Proof. reflexivity. Qed.

Lemma emit_emit (l1 l2 : list string) (h : HGRemote) :
  emit l2 (emit l1 h) = emit (l1 ++ l2) h.
Proof. destruct h. unfold emit, set_stdout. cbn. by rewrite app_assoc. Qed.

Lemma emit_nil (h : HGRemote) : emit [] h = h.
Proof. destruct h. unfold emit, set_stdout. cbn. by rewrite app_nil_r. Qed.

Lemma output_run (l : string) (h : HGRemote) : output l h = Ok tt (emit [l] h).
Proof. reflexivity. Qed.

(** C2: [do_capabilities] writes [import], [export], the three [refspec]
    lines for branches, bookmarks and tags, then the [*import-marks] line
    exactly when the marks file exists, then the [*export-marks] line and
    a blank line, in this order, and changes nothing else. *)
Theorem do_capabilities_output (self : HGRemote) :
  let marks :=
    if decide (marks_git_path self ∈ files self)
    then ["*import-marks " +:+ marks_git_path self] else [] in
  let response :=
    ["import"; "export";
     "refspec refs/heads/branches/*:" +:+ prefix self +:+ "/branches/*";
     "refspec refs/heads/*:" +:+ prefix self +:+ "/bookmarks/*";
     "refspec refs/tags/*:" +:+ prefix self +:+ "/tags/*"]
    ++ marks ++ ["*export-marks " +:+ marks_git_path self; ""] in
  do_capabilities self = Ok tt (emit response self)
  /\ ("*import-marks " +:+ marks_git_path self ∈ response
      <-> marks_git_path self ∈ files self).
Proof.
  intros marks response. subst response marks. split.
  - unfold do_capabilities. rewrite bind_run. cbn [get].
    repeat (rewrite bind_run, output_run).
    destruct (decide (marks_git_path self ∈ files self)).
    + repeat (rewrite bind_run, output_run). rewrite output_run.
      by rewrite !emit_emit.
    + rewrite bind_run. cbn [mret M_ret].
      repeat (rewrite bind_run, output_run). rewrite output_run.
      by rewrite !emit_emit.
  - destruct (decide (marks_git_path self ∈ files self)) as [Hin|Hnin].
    + split; [done|]. intros _. set_solver.
    + split; [|done]. intros H. exfalso.
      rewrite !elem_of_app, !elem_of_cons in H.
      destruct H as [H|[H|H]].
      * destruct H as [H|[H|[H|[H|[H|H]]]]];
          [discriminate H ..|by apply elem_of_nil in H].
      * by apply elem_of_nil in H.
      * destruct H as [H|[H|H]]; [discriminate H ..|by apply elem_of_nil in H].
Qed.

(** ** [do_list] *)

Lemma set_bookmarks_twice bm bm' (h : HGRemote) :
  set_bookmarks bm' (set_bookmarks bm h) = set_bookmarks bm' h.
Proof. by destruct h. Qed.

Lemma set_branches_twice br br' (h : HGRemote) :
  set_branches br' (set_branches br h) = set_branches br' h.
Proof. by destruct h. Qed.

Section ListProperties.
Variable hg_to_git_spaces : string -> string.

Lemma list_branches_run (h : HGRemote) :
  list_branches hg_to_git_spaces h
  = Ok tt (emit (listed_branches hg_to_git_spaces (branches h)) h).
Proof.
  unfold list_branches, listed_branches. rewrite bind_run. cbn [get].
  generalize (map_to_list (branches h)).*1. intros l. revert h.
  induction l as [|b l IH]; intros h; cbn [for_each fmap list_fmap].
  { by rewrite emit_nil. }
  rewrite bind_run.
  destruct (decide (b <> "default")) as [Hb|Hb].
  - rewrite output_run, IH, emit_emit. by rewrite decide_False.
  - rewrite output_run, IH, emit_emit. rewrite decide_True; [done|].
    by destruct (decide (b = "default")).
Qed.

Lemma list_bookmarks_run (h : HGRemote) :
  list_bookmarks hg_to_git_spaces h
  = Ok tt (emit (listed_bookmarks hg_to_git_spaces (bookmarks h)) h).
Proof.
  unfold list_bookmarks, listed_bookmarks. rewrite bind_run. cbn [get].
  generalize (map_to_list (bookmarks h)).*1. intros l. revert h.
  induction l as [|b l IH]; intros h; cbn [for_each].
  { by rewrite emit_nil. }
  rewrite bind_run, filter_cons.
  destruct (decide (b <> "master")) as [Hb|Hb].
  - rewrite output_run, IH, emit_emit. done.
  - cbn [mret M_ret]. apply IH.
Qed.

Lemma list_tags_run (h : HGRemote) :
  list_tags hg_to_git_spaces h
  = Ok tt (emit (listed_tags hg_to_git_spaces (tagslist (repo h))) h).
Proof.
  unfold list_tags, listed_tags. rewrite bind_run. cbn [get].
  generalize (tagslist (repo h)). intros l. revert h.
  induction l as [|[t n] l IH]; intros h; cbn [for_each].
  { by rewrite emit_nil. }
  rewrite bind_run, fmap_cons, filter_cons. cbn [fst].
  destruct (decide (t <> "tip")) as [Ht|Ht].
  - rewrite output_run, IH, emit_emit. done.
  - cbn [mret M_ret]. apply IH.
Qed.

Lemma update_bookmarks_loop (l : list (string * string)) :
  forall h : HGRemote,
  (forall b n, (b, n) ∈ l -> is_Some (repo_lookup (repo h) n)) ->
  exists bm,
    for_each l (fun '(bookmark, node) =>
      c ← lookup_rev node;
      modify (fun h => set_bookmarks (<[bookmark := c]> (bookmarks h)) h)) h
    = Ok tt (set_bookmarks bm h)
    /\ dom bm = list_to_set l.*1 ∪ dom (bookmarks h).
Proof.
  induction l as [|[b n] l IH]; intros h Hl; cbn [for_each].
  - exists (bookmarks h). split; [by destruct h|]. set_solver.
  - destruct (Hl b n) as [c Hc]; [left|].
    rewrite !bind_run. unfold lookup_rev at 1. rewrite Hc. cbn [modify].
    destruct (IH (set_bookmarks (<[b := c]> (bookmarks h)) h))
      as (bm & Hrun & Hdom).
    { intros b' n' Hin. destruct h. apply (Hl b' n'). by right. }
    exists bm. rewrite Hrun, set_bookmarks_twice. split; [done|].
    rewrite Hdom. destruct h. cbn. rewrite dom_insert_L. set_solver.
Qed.

Lemma update_bookmarks_run (h : HGRemote) :
  repo_consistent (repo h) ->
  exists bm,
    update_bookmarks h = Ok tt (set_bookmarks bm h)
    /\ dom bm = dom (listbookmarks (repo h)) ∪ dom (bookmarks h).
Proof.
  intros (_ & _ & _ & Hbm). unfold update_bookmarks.
  rewrite bind_run. cbn [get].
  destruct (update_bookmarks_loop (map_to_list (listbookmarks (repo h))) h)
    as (bm & Hrun & Hdom).
  { intros b n Hin. apply elem_of_map_to_list in Hin. eauto. }
  exists bm. split; [exact Hrun|]. rewrite Hdom. f_equal.
  apply set_eq. intros b. rewrite elem_of_list_to_set, elem_of_dom.
  rewrite list_elem_of_fmap. split.
  - intros ([b' n] & -> & Hin). apply elem_of_map_to_list in Hin. eauto.
  - intros [n Hn]. exists (b, n). split; [done|].
    by apply elem_of_map_to_list.
Qed.

Lemma update_branches_loop (r : Repo) (l : list string) :
  forall h : HGRemote,
  exists br,
    for_each l (fun branch =>
      match branchheads r branch with
      | [] => mret tt
      | _ => modify (fun h =>
               set_branches (<[branch := branchheads r branch]> (branches h)) h)
      end) h
    = Ok tt (set_branches br h)
    /\ dom (branches h) ⊆ dom br
    /\ (forall b, b ∈ l -> branchheads r b <> [] -> b ∈ dom br).
Proof.
  induction l as [|b l IH]; intros h; cbn [for_each].
  - exists (branches h). split; [by destruct h|]. set_solver.
  - rewrite bind_run. cbn beta. destruct (branchheads r b) as [|x hs] eqn:Hb.
    + cbn [mret M_ret]. destruct (IH h) as (br & Hrun & Hsub & Hin).
      exists br. split; [done|]. split; [done|].
      intros b' Hb' Hne. apply elem_of_cons in Hb' as [->|Hb']; [congruence|].
      by apply Hin.
    + cbn [modify].
      destruct (IH (set_branches (<[b := x :: hs]> (branches h)) h))
        as (br & Hrun & Hsub & Hin).
      exists br. rewrite Hrun, set_branches_twice. split; [done|].
      assert (dom (<[b := x :: hs]> (branches h)) ⊆ dom br) as Hsub'
        by (by destruct h).
      rewrite dom_insert_L in Hsub'. split; [set_solver|].
      intros b' Hb' Hne. apply elem_of_cons in Hb' as [->|Hb']; [set_solver|].
      by apply Hin.
Qed.

Lemma update_branches_run (h : HGRemote) :
  exists br,
    update_branches h = Ok tt (set_branches br h)
    /\ dom (branches h) ⊆ dom br
    /\ (forall b, b ∈ dom (branchmap (repo h)) ->
          branchheads (repo h) b <> [] -> b ∈ dom br).
Proof.
  unfold update_branches. rewrite bind_run. cbn [get].
  destruct (update_branches_loop (repo h)
              (map_to_list (branchmap (repo h))).*1 h)
    as (br & Hrun & Hsub & Hin).
  exists br. split; [exact Hrun|]. split; [done|].
  intros b Hb Hne. apply Hin; [|done].
  apply elem_of_dom in Hb as [hs Hhs]. apply list_elem_of_fmap.
  exists (b, hs). split; [done|]. by apply elem_of_map_to_list.
Qed.

(** The head that [do_list] resolves: the current bookmark; without
    one, the current branch, [default] renamed to [master]. *)
Lemma resolve_head_run (h : HGRemote) :
  repo_consistent (repo h) -> ~ empty_repository (repo h) ->
  exists node,
    resolve_head h
    = Ok (Some (match readcurrent (repo h) with
                | Some (String c b) => String c b
                | _ => if decide (dirstate_branch (repo h) = "default")
                       then "master" else dirstate_branch (repo h)
                end, node)) h.
Proof.
  intros (Hcur & [c Hdot] & Hdef & _) Hne. unfold resolve_head.
  rewrite bind_run. cbn [get].
  destruct (readcurrent (repo h)) as [[|a b]|] eqn:Hrc; cbn [name_truth].
  2:{ destruct (Hcur _ eq_refl) as [node Hnode]. exists node.
      rewrite bind_run. cbn [default from_option id]. unfold lookup_rev.
      by rewrite Hnode. }
  all: rewrite bind_run; unfold lookup_rev at 1; rewrite Hdot;
    destruct (ctx_truth c) eqn:Hc; cbn [negb];
    [by exists c|];
    destruct (repo_contains (repo h) "default") eqn:Hd;
    [destruct (Hdef eq_refl) as [node Hnode]; exists node;
     rewrite bind_run; unfold lookup_rev; by rewrite Hnode|];
    exfalso; apply Hne; unfold empty_repository; rewrite Hrc; eauto.
Qed.

(** The response of [do_list] on a repository with revisions: the head
    line, the three blocks of ref lines, a blank line. *)
Lemma do_list_response (self : HGRemote) :
  repo_consistent (repo self) -> ~ empty_repository (repo self) ->
  exists head node bm br,
    resolve_head self = Ok (Some (head, node)) self
    /\ dom bm = dom (listbookmarks (repo self)) ∪ dom (bookmarks self)
    /\ dom (branches self) ⊆ dom br
    /\ (forall b, b ∈ dom (branchmap (repo self)) ->
          branchheads (repo self) b <> [] -> b ∈ dom br)
    /\ do_list hg_to_git_spaces self
       = Ok tt (emit (["@refs/heads/" +:+ head +:+ " HEAD"]
                      ++ listed_branches hg_to_git_spaces br
                      ++ listed_bookmarks hg_to_git_spaces bm
                      ++ listed_tags hg_to_git_spaces (tagslist (repo self))
                      ++ [""])
                 (set_branches br
                    (set_bookmarks bm (set_headnode (head, node) self)))).
Proof.
  intros Hcons Hne.
  destruct (resolve_head_run self Hcons Hne) as [node Hres].
  set (head := match readcurrent (repo self) with
               | Some (String c b) => String c b
               | _ => _ end) in Hres.
  set (h1 := set_headnode (head, node) self).
  destruct (update_bookmarks_run h1) as (bm & Hbm & Hdbm);
    [by destruct self|].
  destruct (update_branches_run (set_bookmarks bm h1))
    as (br & Hbr & Hsub & Hin).
  exists head, node, bm, br.
  split; [done|]. split; [by destruct self|].
  split; [by destruct self|]. split; [by destruct self|].
  unfold do_list. rewrite bind_run, Hres.
  rewrite bind_run. cbn [modify]. fold h1.
  rewrite bind_run, Hbm. rewrite bind_run, Hbr.
  rewrite bind_run, output_run.
  rewrite bind_run, list_branches_run, emit_emit.
  rewrite bind_run, list_bookmarks_run, emit_emit.
  rewrite bind_run, list_tags_run, emit_emit.
  rewrite output_run, emit_emit.
  f_equal. f_equal. rewrite <- !app_assoc. by destruct self.
Qed.

End ListProperties.

Lemma stdout_emit (ls : list string) (h : HGRemote) :
  stdout (emit ls h) = stdout h ++ ls.
Proof. by destruct h. Qed.

Lemma elem_of_keys `{Countable K} {A} (m : gmap K A) (k : K) :
  k ∈ (map_to_list m).*1 <-> k ∈ dom m.
Proof.
  rewrite list_elem_of_fmap, elem_of_dom. split.
  - intros ([k' x] & -> & Hin). apply elem_of_map_to_list in Hin. eauto.
  - intros [x Hx]. exists (k, x). split; [done|]. by apply elem_of_map_to_list.
Qed.

Lemma append_prefix_inj (p x y : string) : p +:+ x = p +:+ y -> x = y.
Proof.
  induction p as [|c p IH]; intros H; [exact H|].
  apply IH. by injection H.
Qed.

Section ListedLines.
Variable hg_to_git_spaces : string -> string.

Lemma elem_of_listed_branches (bs : gmap string (list string)) (l : string) :
  l ∈ listed_branches hg_to_git_spaces bs <->
  exists b, b ∈ dom bs /\
    l = if decide (b = "default") then "? refs/heads/master"
        else "? refs/heads/branches/" +:+ hg_to_git_spaces b.
Proof.
  unfold listed_branches. rewrite list_elem_of_fmap.
  split; intros (b & H1 & H2).
  - exists b. by rewrite <- elem_of_keys.
  - exists b. by rewrite elem_of_keys.
Qed.

Lemma elem_of_listed_bookmarks (bm : gmap string changectx) (l : string) :
  l ∈ listed_bookmarks hg_to_git_spaces bm <->
  exists b, b ∈ dom bm /\ b <> "master" /\
    l = "? refs/heads/" +:+ hg_to_git_spaces b.
Proof.
  unfold listed_bookmarks. rewrite list_elem_of_fmap. split.
  - intros (b & -> & Hb). apply list_elem_of_filter in Hb as [Hne Hb].
    exists b. by rewrite <- elem_of_keys.
  - intros (b & Hb & Hne & ->). exists b. split; [done|].
    apply list_elem_of_filter. by rewrite elem_of_keys.
Qed.

Lemma elem_of_listed_tags (ts : list (string * string)) (l : string) :
  l ∈ listed_tags hg_to_git_spaces ts <->
  exists t n, (t, n) ∈ ts /\ t <> "tip" /\
    l = "? refs/tags/" +:+ hg_to_git_spaces t.
Proof.
  unfold listed_tags. rewrite list_elem_of_fmap. split.
  - intros (t & -> & Ht). apply list_elem_of_filter in Ht as [Hne Ht].
    apply list_elem_of_fmap in Ht as ([t' n] & -> & Hin). by exists t', n.
  - intros (t & n & Hin & Hne & ->). exists t. split; [done|].
    apply list_elem_of_filter. split; [done|].
    apply list_elem_of_fmap. by exists (t, n).
Qed.

(** C3: on a repository without revisions [do_list] writes one blank
    line and nothing else, and leaves the session as it was. *)
Theorem do_list_empty_repository (self : HGRemote) :
  empty_repository (repo self) ->
  do_list hg_to_git_spaces self = Ok tt (emit [""] self).
Proof.
  intros (Hcur & (c & Hdot & Hc) & Hdef).
  unfold do_list, resolve_head. rewrite !bind_run. cbn [get].
  rewrite Hcur, bind_run. unfold lookup_rev. rewrite Hdot, Hc. cbn [negb].
  rewrite Hdef. cbn [mret M_ret]. apply output_run.
Qed.

(** C4: on a repository with revisions, without current bookmark and
    on the branch [default], the head line of the response names
    [refs/heads/master]; the branch [default], when listed, gives the
    line [? refs/heads/master]; and every other line of the block of
    branches is the line [? refs/heads/branches/<b>] of a branch [b]
    other than [default], so that no line names [default] unless the
    escaping of another branch name does. *)
Theorem do_list_default_is_master (self : HGRemote) :
  repo_consistent (repo self) -> ~ empty_repository (repo self) ->
  name_truth (readcurrent (repo self)) = false ->
  dirstate_branch (repo self) = "default" ->
  exists self' rest,
    do_list hg_to_git_spaces self = Ok tt self'
    /\ stdout self'
       = stdout self ++ ["@refs/heads/master HEAD"]
         ++ listed_branches hg_to_git_spaces (branches self') ++ rest
    /\ fst <$> headnode self' = Some "master"
    /\ ("default" ∈ dom (branchmap (repo self)) ->
        branchheads (repo self) "default" <> [] ->
        "default" ∈ dom (branches self'))
    /\ ("default" ∈ dom (branches self') ->
        "? refs/heads/master"
          ∈ listed_branches hg_to_git_spaces (branches self'))
    /\ (forall l, l ∈ listed_branches hg_to_git_spaces (branches self') ->
          l = "? refs/heads/master" \/
          exists b, b ∈ dom (branches self') /\ b <> "default" /\
            l = "? refs/heads/branches/" +:+ hg_to_git_spaces b)
    /\ ((forall b, hg_to_git_spaces b = "default" -> b = "default") ->
        "? refs/heads/branches/default"
          ∉ listed_branches hg_to_git_spaces (branches self')).
Proof.
  intros Hcons Hne Hcur Hbranch.
  destruct (do_list_response hg_to_git_spaces self Hcons Hne)
    as (head & node & bm & br & Hres & Hdbm & Hsub & Hin & Hrun).
  destruct (resolve_head_run self Hcons Hne) as [node' Hres'].
  rewrite Hres' in Hres. rewrite Hbranch in Hres.
  assert (head = "master") as ->.
  { destruct (readcurrent (repo self)) as [[|a b]|]; cbn in Hcur;
      try discriminate; by injection Hres as <- _. }
  eexists. eexists. split; [exact Hrun|].
  assert (forall ls, branches (emit ls (set_branches br
            (set_bookmarks bm (set_headnode ("master", node) self)))) = br)
    as Hbr by (intros; by destruct self).
  rewrite Hbr, stdout_emit.
  assert (forall l, l ∈ listed_branches hg_to_git_spaces br ->
            l = "? refs/heads/master" \/
            exists b, b ∈ dom br /\ b <> "default" /\
              l = "? refs/heads/branches/" +:+ hg_to_git_spaces b) as Hlines.
  { intros l Hl. apply elem_of_listed_branches in Hl as (b & Hb & ->).
    destruct (decide (b = "default")); [by left|right; eauto]. }
  split; [by destruct self|]. split; [by destruct self|].
  split; [exact (Hin "default")|]. split; [|split; [exact Hlines|]].
  - intros Hd. apply elem_of_listed_branches. exists "default".
    split; [done|]. by rewrite decide_True.
  - intros Hesc Hl. apply Hlines in Hl as [Hl|(b & _ & Hb & Hl)];
      [discriminate Hl|].
    apply Hb, Hesc. symmetry.
    apply (append_prefix_inj "? refs/heads/branches/"). exact Hl.
Qed.

(** C9: in the response of [do_list] on a repository with revisions,
    the block of bookmarks has the line [? refs/heads/<b>] of every
    bookmark [b] other than [master], those of the repository among
    them, and no other line; the block of tags has the line
    [? refs/tags/<t>] of every tag [t] other than [tip] and no other
    line; names are escaped. *)
Theorem do_list_bookmarks_and_tags (self : HGRemote) :
  repo_consistent (repo self) -> ~ empty_repository (repo self) ->
  exists self' head,
    do_list hg_to_git_spaces self = Ok tt self'
    /\ stdout self'
       = stdout self ++ ["@refs/heads/" +:+ head +:+ " HEAD"]
         ++ listed_branches hg_to_git_spaces (branches self')
         ++ listed_bookmarks hg_to_git_spaces (bookmarks self')
         ++ listed_tags hg_to_git_spaces (tagslist (repo self))
         ++ [""]
    /\ dom (listbookmarks (repo self)) ⊆ dom (bookmarks self')
    /\ (forall l, l ∈ listed_bookmarks hg_to_git_spaces (bookmarks self') <->
          exists b, b ∈ dom (bookmarks self') /\ b <> "master" /\
            l = "? refs/heads/" +:+ hg_to_git_spaces b)
    /\ (forall l, l ∈ listed_tags hg_to_git_spaces (tagslist (repo self)) <->
          exists t n, (t, n) ∈ tagslist (repo self) /\ t <> "tip" /\
            l = "? refs/tags/" +:+ hg_to_git_spaces t).
Proof.
  intros Hcons Hne.
  destruct (do_list_response hg_to_git_spaces self Hcons Hne)
    as (head & node & bm & br & Hres & Hdbm & Hsub & Hin & Hrun).
  eexists. exists head. split; [exact Hrun|].
  rewrite stdout_emit.
  assert (forall ls, bookmarks (emit ls (set_branches br
            (set_bookmarks bm (set_headnode (head, node) self)))) = bm)
    as -> by (intros; by destruct self).
  assert (forall ls, branches (emit ls (set_branches br
            (set_bookmarks bm (set_headnode (head, node) self)))) = br)
    as -> by (intros; by destruct self).
  split; [by destruct self|]. split; [rewrite Hdbm; set_solver|].
  split; [apply elem_of_listed_bookmarks|apply elem_of_listed_tags].
Qed.

End ListedLines.

(** ** The command loop *)

Section Dispatch.
Variable hg_to_git_spaces : string -> string.
Variable do_import : M (GitRemoteParser * HGRemote) unit.
Variable do_export : M (GitRemoteParser * HGRemote) unit.
Variable marks_store : M HGRemote unit.

(** One step of the loop of [process]. *)
Lemma process_loop_step (fuel : nat) (g g' : gen_state) (l : string)
    (p p' : GitRemoteParser) (self : HGRemote) :
  read_block_next "" g p = (Some l, g', p') ->
  process_loop hg_to_git_spaces do_import do_export marks_store
    (S fuel) g (p, self)
  = match process_command hg_to_git_spaces do_import do_export l (p', self)
    with
    | Ok _ st' =>
        process_loop hg_to_git_spaces do_import do_export marks_store
          fuel g' st'
    | Raise e st' => Some (Raise e st')
    end.
Proof. intros H. cbn [process_loop fst snd]. by rewrite H. Qed.

(** C5: for a line whose first token is none of [capabilities],
    [list], [import], [export], the body of the loop raises the fatal
    error [unhandled command: <line>] with the session untouched, and
    the loop ends with that error; for a line whose first token is one
    of the four, the body of the loop is the handler of that name. *)
Theorem process_dispatch (l command : string)
    (st : GitRemoteParser * HGRemote) :
  Py.first_token l = Some command ->
  (command ∉ commands ->
     process_command hg_to_git_spaces do_import do_export l st
     = Raise (SystemExit ("unhandled command: " +:+ l)) st
     /\ forall fuel g g' p,
          read_block_next "" g p = (Some l, g', st.1) ->
          process_loop hg_to_git_spaces do_import do_export marks_store
            (S fuel) g (p, st.2)
          = Some (Raise (SystemExit ("unhandled command: " +:+ l)) st))
  /\ (command = "capabilities" ->
      process_command hg_to_git_spaces do_import do_export l st
      = on_self do_capabilities st)
  /\ (command = "list" ->
      process_command hg_to_git_spaces do_import do_export l st
      = on_self (do_list hg_to_git_spaces) st)
  /\ (command = "import" ->
      process_command hg_to_git_spaces do_import do_export l st
      = do_import st)
  /\ (command = "export" ->
      process_command hg_to_git_spaces do_import do_export l st
      = do_export st).
Proof.
  intros Htok.
  assert (command ∉ commands ->
          process_command hg_to_git_spaces do_import do_export l st
          = Raise (SystemExit ("unhandled command: " +:+ l)) st) as Hbad.
  { intros Hc. unfold process_command. rewrite Htok, bind_run.
    by rewrite decide_False. }
  split; [|repeat split].
  - intros Hc. split; [by apply Hbad|].
    intros fuel g g' p Hnext. destruct st as [p' self]. cbn [fst snd] in *.
    rewrite (process_loop_step fuel g g' l p p' self Hnext).
    by rewrite Hbad.
  - intros ->. unfold process_command. rewrite Htok, bind_run.
    rewrite decide_True by (unfold commands; set_solver). reflexivity.
  - intros ->. unfold process_command. rewrite Htok, bind_run.
    rewrite decide_True by (unfold commands; set_solver). reflexivity.
  - intros ->. unfold process_command. rewrite Htok, bind_run.
    rewrite decide_True by (unfold commands; set_solver). reflexivity.
  - intros ->. unfold process_command. rewrite Htok, bind_run.
    rewrite decide_True by (unfold commands; set_solver). reflexivity.
Qed.

End Dispatch.

(** ** The properties at work on the example repositories *)

Lemma blank_repo_empty : empty_repository blank_repo.
Proof.
  split; [reflexivity|]. split; [|reflexivity].
  exists (mkCtx nullrev "000000"). split; reflexivity.
Defined.

Lemma example_repo_consistent : repo_consistent example_repo.
Proof.
  split; [intros b H; discriminate H|].
  split; [exists (mkCtx 0 "abc123"); reflexivity|].
  split; [intros _; exists (mkCtx 0 "abc123"); reflexivity|].
  intros b n H. exists (mkCtx 0 "abc123").
  cbn [example_repo listbookmarks] in H.
  apply lookup_insert_Some in H as [[_ <-]|[_ H]]; [reflexivity|].
  apply lookup_insert_Some in H as [[_ <-]|[_ H]]; [reflexivity|].
  by rewrite lookup_empty in H.
Defined.

Lemma example_repo_not_empty : ~ empty_repository example_repo.
Proof. intros (_ & _ & H). vm_compute in H. discriminate H. Defined.

Lemma do_list_empty_repository_witness :
  empty_repository blank_repo /\
  do_list (escape_spaces "___") (example_session blank_repo)
  = Ok tt (emit [""] (example_session blank_repo)).
Proof.
  split; [exact blank_repo_empty|].
  apply (do_list_empty_repository (escape_spaces "___")
           (example_session blank_repo)).
  exact blank_repo_empty.
Defined.

Lemma do_list_default_is_master_witness :
  repo_consistent example_repo /\ ~ empty_repository example_repo /\
  name_truth (readcurrent example_repo) = false /\
  dirstate_branch example_repo = "default" /\
  exists self' rest,
    do_list (escape_spaces "___") (example_session example_repo) = Ok tt self'
    /\ stdout self'
       = ["@refs/heads/master HEAD"]
         ++ listed_branches (escape_spaces "___") (branches self') ++ rest.
Proof.
  split; [exact example_repo_consistent|].
  split; [exact example_repo_not_empty|].
  split; [reflexivity|]. split; [reflexivity|].
  destruct (do_list_default_is_master (escape_spaces "___")
              (example_session example_repo) example_repo_consistent
              example_repo_not_empty eq_refl eq_refl)
    as (self' & rest & Hrun & Hout & _).
  exists self', rest. split; [exact Hrun|exact Hout].
Defined.

Lemma do_list_bookmarks_and_tags_witness :
  repo_consistent example_repo /\ ~ empty_repository example_repo /\
  exists self',
    do_list (escape_spaces "___") (example_session example_repo) = Ok tt self'
    /\ dom (listbookmarks example_repo) ⊆ dom (bookmarks self').
Proof.
  split; [exact example_repo_consistent|].
  split; [exact example_repo_not_empty|].
  destruct (do_list_bookmarks_and_tags (escape_spaces "___")
              (example_session example_repo) example_repo_consistent
              example_repo_not_empty)
    as (self' & head & Hrun & _ & Hdom & _).
  exists self'. split; [exact Hrun|exact Hdom].
Defined.

Lemma process_dispatch_witness :
  let st := (GitRemoteParser_init "", example_session example_repo) in
  Py.first_token "option verbosity 1" = Some "option" /\
("option" ∉ commands) /\
  process_command (escape_spaces "___") (mret tt) (mret tt)
    "option verbosity 1" st
  = Raise (SystemExit "unhandled command: option verbosity 1") st.
Proof.
  intros st. split; [reflexivity|].
  assert ("option" ∉ commands) as Hc.
  { unfold commands. intros H.
    repeat (apply elem_of_cons in H as [H|H]; [discriminate H|]).
    by apply elem_of_nil in H. }
  split; [exact Hc|].
  apply (proj1 (process_dispatch (escape_spaces "___") (mret tt) (mret tt)
                  (mret tt) "option verbosity 1" "option" st eq_refl) Hc).
Defined.

(** * Further properties of the parser *)

(** ** [read_mark] *)

Lemma read_line_returns_line (p : GitRemoteParser) :
  fst (read_line p) = line (snd (read_line p)).
Proof.
  unfold read_line. destruct (peek_stack p); [|done].
  by destruct (stdin_readline (stdin p)).
Qed.

Lemma partition_tail_found (sep : ascii) (pre s : string) :
  string_all (is_not sep) pre = true ->
  Py.partition_tail sep (pre +:+ String sep s) = s.
Proof.
  intros H. induction pre as [|c pre IH].
  - change (Py.partition_tail sep (String sep s) = s).
    cbn [Py.partition_tail]. by rewrite Ascii.eqb_refl.
  - cbn [string_all] in H. apply andb_true_iff in H as [Hc H].
    change (Py.partition_tail sep (String c (pre +:+ String sep s)) = s).
    cbn [Py.partition_tail]. unfold is_not in Hc.
    apply negb_true_iff in Hc. rewrite Hc. by apply IH.
Qed.

Lemma partition_tail_missing (sep : ascii) (s : string) :
  string_all (is_not sep) s = true -> Py.partition_tail sep s = "".
Proof.
  induction s as [|c s IH]; [done|]. intros H.
  cbn [string_all] in H. apply andb_true_iff in H as [Hc H].
  cbn [Py.partition_tail]. unfold is_not in Hc.
  apply negb_true_iff in Hc. rewrite Hc. by apply IH.
Qed.

Lemma decimal_digits (n : nat) :
  decimal n <> "" /\ Py.digits_val 0 (decimal n) = Some (Z.of_nat n).
Proof.
  unfold decimal. split.
  - destruct (Nat.to_uint n) eqn:E; [|discriminate ..].
    pose proof (Unsigned.of_to n) as H. rewrite E in H. cbn in H.
    subst n. discriminate E.
  - rewrite digits_val_of_uint by lia. change (Z.to_nat 0) with O.
    change (Nat.of_uint_acc (Nat.to_uint n) 0)
      with (Nat.of_uint (Nat.to_uint n)).
    by rewrite Unsigned.of_to.
Qed.

(** X1: on a line made of a text without colon, a colon and the decimal
    numeral of [n], such as [mark :12], [read_mark] consumes the line
    and returns [n]. *)
Theorem read_mark_returns (p : GitRemoteParser) (pre : string) (n : nat) :
  string_all (is_not ":") pre = true ->
  line (snd (read_line p)) = pre +:+ ":" +:+ decimal n ->
  read_mark p = Ok (Z.of_nat n) (snd (read_line p)).
Proof.
  intros Hpre Hl. unfold read_mark.
  pose proof (read_line_returns_line p) as Hfst.
  destruct (read_line p) as [l p1]. cbn [fst snd] in *. subst l.
  rewrite Hl.
  change (pre +:+ ":" +:+ decimal n) with (pre +:+ String ":" (decimal n)).
  rewrite (partition_tail_found ":" pre _ Hpre).
  by rewrite int_decimal.
Qed.

Lemma read_mark_returns_witness :
  let p := mkParser [] "" ("mark :12" +:+ String Py.newline "") in
  string_all (is_not ":") "mark " = true /\
  line (snd (read_line p)) = "mark " +:+ ":" +:+ decimal 12 /\
  read_mark p = Ok 12 (snd (read_line p)).
Proof.
  intros p. split; [reflexivity|]. split; [reflexivity|].
  apply (read_mark_returns p "mark " 12); reflexivity.
Defined.

(** X2: on a line without colon [read_mark] consumes the line and raises
    a [ValueError]: [partition] leaves nothing for [int] to read. *)
Theorem read_mark_without_colon (p : GitRemoteParser) :
  string_all (is_not ":") (line (snd (read_line p))) = true ->
  read_mark p = Raise (ValueError "") (snd (read_line p)).
Proof.
  intros H. unfold read_mark.
  pose proof (read_line_returns_line p) as Hfst.
  destruct (read_line p) as [l p1]. cbn [fst snd] in *. subst l.
  by rewrite (partition_tail_missing ":" _ H).
Qed.

Lemma read_mark_without_colon_witness :
  let p := mkParser ["commit refs/heads/master"] "" "" in
  string_all (is_not ":") (line (snd (read_line p))) = true /\
  read_mark p = Raise (ValueError "") (snd (read_line p)).
Proof.
  intros p. split; [reflexivity|].
  apply (read_mark_without_colon p). reflexivity.
Defined.

(** ** [read_data] *)

(** X3: on a line that starts with [data] and holds no space, [data]
    itself for one, [read_data] consumes the line and raises a
    [ValueError]; no byte of the input is read after the line. *)
Theorem read_data_without_size (p : GitRemoteParser) :
  Py.startswith "data" (line (snd (read_line p))) = true ->
  string_all (is_not " ") (line (snd (read_line p))) = true ->
  read_data p = Raise (ValueError "") (snd (read_line p)).
Proof.
  intros Hd Hs. unfold read_data. rewrite Hd. cbn [negb].
  by rewrite (partition_tail_missing " " _ Hs).
Qed.

Lemma read_data_without_size_witness :
  let p := mkParser [] "" ("database" +:+ String Py.newline "rest") in
  Py.startswith "data" (line (snd (read_line p))) = true /\
  string_all (is_not " ") (line (snd (read_line p))) = true /\
  read_data p = Raise (ValueError "") (snd (read_line p)).
Proof.
  intros p. split; [reflexivity|]. split; [reflexivity|].
  apply (read_data_without_size p); reflexivity.
Defined.

(** X4: a negative size makes [read_data] return all that is left of
    the input: on the line [data -N] with [N] positive the result is the
    whole rest of the input, and the input is at its end afterwards. *)
Theorem read_data_negative_size (p : GitRemoteParser) (n : nat) :
  (0 < n)%nat ->
  line (snd (read_line p)) = "data -" +:+ decimal n ->
  read_data p
  = Ok (Some (stdin (snd (read_line p))))
       (mkParser (peek_stack (snd (read_line p)))
          (line (snd (read_line p))) "").
Proof.
  intros Hn Hl. unfold read_data.
  set (p1 := snd (read_line p)) in *. rewrite Hl.
  change (Py.startswith "data" ("data -" +:+ decimal n)) with true.
  change (Py.partition_tail " " ("data -" +:+ decimal n))
    with (String "-" (decimal n)).
  cbn [negb]. destruct (decimal_digits n) as [Hne Hv].
  rewrite (int_signed "-" (decimal n) (Z.of_nat n) eq_refl Hne Hv).
  cbn [Ascii.eqb Bool.eqb]. unfold Py.read.
  destruct (Z.ltb_spec (- Z.of_nat n) 0) as [_|?]; [done|lia].
Qed.

Lemma read_data_negative_size_witness :
  let p := mkParser [] "" ("data -1" +:+ String Py.newline "all the rest") in
  (0 < 1)%nat /\
  line (snd (read_line p)) = "data -" +:+ decimal 1 /\
  read_data p
  = Ok (Some (stdin (snd (read_line p))))
       (mkParser (peek_stack (snd (read_line p)))
          (line (snd (read_line p))) "").
Proof.
  intros p. split; [lia|]. split; [reflexivity|].
  apply (read_data_negative_size p 1); [lia|reflexivity].
Defined.

(** X5: [read_data] takes its header from the lookahead buffer when
    there is one, and its bytes from the input all the same: with
    [data N] first in the buffer, the result is the next [N] bytes of
    the input, which lie after the lines still buffered, and these
    lines stay in the buffer. *)
Theorem read_data_buffered_header (q : list string) (l0 inp : string)
    (n : nat) :
  read_data (mkParser (("data " +:+ decimal n) :: q) l0 inp)
  = Ok (Some (Py.take n inp))
       (mkParser q ("data " +:+ decimal n) (Py.drop n inp)).
Proof.
  unfold read_data, read_line. cbn [peek_stack snd line stdin].
  change (Py.startswith "data" ("data " +:+ decimal n)) with true.
  change (Py.partition_tail " " ("data " +:+ decimal n)) with (decimal n).
  cbn [negb]. rewrite int_decimal. unfold Py.read.
  destruct (Z.ltb_spec (Z.of_nat n) 0) as [?|_]; [lia|].
  by rewrite Nat2Z.id.
Qed.

(** ** [read_author] *)

Lemma author_tz_west (hh mm : Z) :
  0 <= mm < 100 ->
  author_tz (- (hh * 100 + mm))
  = if decide (mm = 0) then hh * 3600
    else (hh + 1) * 3600 + (100 - mm) * 60.
Proof.
  intros H. unfold author_tz. destruct (decide (mm = 0)) as [->|Hmm].
  - replace (- (hh * 100 + 0)) with ((- hh) * 100) by lia.
    rewrite Z.div_mul, Z.mod_mul by lia. lia.
  - replace (- (hh * 100 + mm)) with ((- hh - 1) * 100 + (100 - mm)) by lia.
    rewrite Z.div_add_l, Z.div_small by lia.
    rewrite (Z.add_comm ((- hh - 1) * 100)), Z.mod_add, Z.mod_small by lia.
    lia.
Qed.

(** X6: on a well-formed line with a user, whose time-zone field has
    the sign [sign] and digits worth [hh * 100 + mm] with [mm] below
    100, [read_author] returns the user with the email in brackets, the
    date, and an offset that is [- hh * 3600 + mm * 60] for a [+] field;
    for a [-] field it is [hh * 3600] when [mm] is zero and
    [(hh + 1) * 3600 + (100 - mm) * 60] otherwise. *)
Theorem read_author_offset (p : GitRemoteParser)
    (kw user email date tzd rest : string) (sign : ascii) (d hh mm : Z) :
  kw ∈ ["author"; "committer"; "tagger"] ->
  user <> "" -> string_all not_angle user = true ->
  string_all not_angle email = true ->
  date <> "" -> Py.digits_val 0 date = Some d ->
  is_sign sign = true ->
  tzd <> "" -> Py.digits_val 0 tzd = Some (hh * 100 + mm) ->
  0 <= mm < 100 ->
  head_in Py.isdigit rest = false ->
  line (snd (read_line p))
  = kw +:+ " " +:+ user +:+ " <" +:+ email +:+ "> " +:+ date +:+ " "
    +:+ String sign tzd +:+ rest ->
  read_author p
  = Ok (Some (user +:+ " <" +:+ email +:+ ">", d,
              if Ascii.eqb sign "-" then
                if decide (mm = 0) then hh * 3600
                else (hh + 1) * 3600 + (100 - mm) * 60
              else - (hh * 3600) + mm * 60))
       (snd (read_line p)).
Proof.
  intros Hkw Hu Hua Hea Hd Hdv Hs Ht Htv Hmm Hrest Hline.
  rewrite (read_author_well_formed p kw user email date tzd rest sign d
             (hh * 100 + mm)); try done.
  do 3 f_equal. destruct (Ascii.eqb sign "-").
  - by apply author_tz_west.
  - by apply author_tz_east.
Qed.

Lemma read_author_offset_witness :
  let p := mkParser
             ["committer Jane Doe <jane@example.com> 1357000000 -0330"]
             "" "" in
  read_author p
  = Ok (Some ("Jane Doe <jane@example.com>", 1357000000,
              (3 + 1) * 3600 + (100 - 30) * 60))
       (snd (read_line p)).
Proof.
  intros p.
  apply (read_author_offset p "committer" "Jane Doe" "jane@example.com"
           "1357000000" "0330" "" "-" 1357000000 3 30).
  - apply list_elem_of_In. right. left. reflexivity.
  - discriminate.
  - reflexivity.
  - reflexivity.
  - discriminate.
  - reflexivity.
  - reflexivity.
  - discriminate.
  - reflexivity.
  - lia.
  - reflexivity.
  - reflexivity.
Defined.

Section AuthorFields.
Context {R : Type}.

Lemma rmatch_Opt_skipped a s caps
    (k : string -> gmap nat string -> option R) :
  rmatch a s caps k = None -> rmatch (Opt a) s caps k = k s caps.
Proof. intros H. cbn [rmatch]. by rewrite H. Qed.
End AuthorFields.

(** The pattern from the email on. *)
Lemma author_email_on_match (email date tzd rest : string) (sign : ascii)
    (caps : gmap nat string) :
  string_all not_angle email = true ->
  date <> "" -> string_all Py.isdigit date = true ->
  is_sign sign = true ->
  tzd <> "" -> string_all Py.isdigit tzd = true ->
  head_in Py.isdigit rest = false ->
  rmatch
    (Seq (Lit " <")
    (Seq (Group 2 (Star not_angle))
    (Seq (Lit "> ")
    (Seq (Group 3 (Plus Py.isdigit))
    (Seq (Lit " ")
         (Group 4 (Seq (Char is_sign) (Plus Py.isdigit))))))))
    (" <" +:+ email +:+ "> " +:+ date +:+ " " +:+ String sign tzd +:+ rest)
    caps (fun _ caps' => Some caps')
  = Some (<[4%nat := String sign tzd]> (<[3%nat := date]>
            (<[2%nat := email]> caps))).
Proof.
  intros Hea Hd Hda Hs Ht Hta Hrest.
  destruct date as [|d0 date]; [done|]. clear Hd.
  destruct tzd as [|t0 tzd]; [done|]. clear Ht.
  cbn [string_all] in Hda, Hta.
  apply andb_true_iff in Hda as [Hd0 Hda].
  apply andb_true_iff in Hta as [Ht0 Hta].
  rewrite rmatch_Seq, rmatch_Lit_app, rmatch_Seq, rmatch_Group.
  apply rmatch_Star_greedy; [done|done|].
  rewrite (take_app_consumed email).
  rewrite rmatch_Seq, rmatch_Lit_app, rmatch_Seq, rmatch_Group.
  apply rmatch_Plus_greedy; [done|done|done|].
  rewrite (take_app_consumed (String d0 date)).
  rewrite rmatch_Seq, rmatch_Lit_app, rmatch_Group, rmatch_Seq.
  change (String sign (String t0 tzd) +:+ rest)
    with (String sign (String t0 tzd +:+ rest)).
  rewrite rmatch_Char by done.
  apply rmatch_Plus_greedy; [done|done|done|].
  change (String sign (String t0 tzd +:+ rest))
    with (String sign (String t0 tzd) +:+ rest).
  by rewrite (take_app_consumed (String sign (String t0 tzd))).
Qed.

(** X7: a line without user, the keyword followed at once by the email
    in brackets, is accepted: [read_author] returns an empty display
    name before the bracketed email, with the date and [author_tz] of
    the signed field. *)
Theorem read_author_without_user (p : GitRemoteParser)
    (kw email date tzd rest : string) (sign : ascii) (d t : Z) :
  kw ∈ ["author"; "committer"; "tagger"] ->
  string_all not_angle email = true ->
  date <> "" -> Py.digits_val 0 date = Some d ->
  is_sign sign = true ->
  tzd <> "" -> Py.digits_val 0 tzd = Some t ->
  head_in Py.isdigit rest = false ->
  line (snd (read_line p))
  = kw +:+ " <" +:+ email +:+ "> " +:+ date +:+ " "
    +:+ String sign tzd +:+ rest ->
  read_author p
  = Ok (Some (" <" +:+ email +:+ ">", d,
              author_tz (if Ascii.eqb sign "-" then - t else t)))
       (snd (read_line p)).
Proof.
  intros Hkw Hea Hd Hdv Hs Ht Htv Hrest Hline.
  unfold read_author. rewrite Hline.
  assert (re_match AUTHOR_RE
            (kw +:+ " <" +:+ email +:+ "> " +:+ date +:+ " "
             +:+ String sign tzd +:+ rest)
          = Some (<[4%nat := String sign tzd]> (<[3%nat := date]>
                    (<[2%nat := email]> ∅)))) as ->.
  { unfold re_match, AUTHOR_RE.
    match goal with
    | |- rmatch (Seq ?kws ?fields) _ _ _ = _ => set (FIELDS := fields)
    end.
    rewrite rmatch_Seq.
    assert (rmatch FIELDS
              (" <" +:+ email +:+ "> " +:+ date +:+ " "
               +:+ String sign tzd +:+ rest) ∅ (fun _ caps => Some caps)
            = Some (<[4%nat := String sign tzd]> (<[3%nat := date]>
                      (<[2%nat := email]> ∅)))) as Hfields.
    { subst FIELDS. rewrite rmatch_Seq.
      rewrite rmatch_Opt_skipped by reflexivity.
      apply author_email_on_match; try done; by eapply digits_val_all. }
    repeat (apply elem_of_cons in Hkw as [->|Hkw]);
      [| | |by apply elem_of_nil in Hkw].
    - apply rmatch_Alt_left. by rewrite rmatch_Lit_app.
    - rewrite rmatch_Alt_right by reflexivity.
      apply rmatch_Alt_left. by rewrite rmatch_Lit_app.
    - rewrite rmatch_Alt_right by reflexivity.
      rewrite rmatch_Alt_right by reflexivity.
      by rewrite rmatch_Lit_app. }
  set (caps := <[4%nat := String sign tzd]> _).
  assert (caps !! 1%nat = None) as -> by (subst caps; by simplify_map_eq).
  assert (caps !! 2%nat = Some email) as -> by (subst caps; by simplify_map_eq).
  assert (caps !! 3%nat = Some date) as -> by (subst caps; by simplify_map_eq).
  assert (caps !! 4%nat = Some (String sign tzd)) as ->
    by (subst caps; by simplify_map_eq).
  cbn [default from_option id mbind option_bind].
  by rewrite (int_digits date d Hd Hdv), (int_signed sign tzd t Hs Ht Htv).
Qed.

Lemma read_author_without_user_witness :
  let p := mkParser ["tagger <bot@example.com> 12 +0100"] "" "" in
  read_author p
  = Ok (Some (" <bot@example.com>", 12, author_tz 100)) (snd (read_line p)).
Proof.
  intros p.
  apply (read_author_without_user p "tagger" "bot@example.com" "12" "0100"
           "" "+" 12 100).
  - apply list_elem_of_In. right. right. left. reflexivity.
  - reflexivity.
  - discriminate.
  - reflexivity.
  - reflexivity.
  - discriminate.
  - reflexivity.
  - reflexivity.
  - reflexivity.
Defined.

(** X8: a line that starts with none of [author], [committer] and
    [tagger] is no author line: [read_author] returns [None], and the
    line it consumed is the parser's current line. *)
Theorem read_author_other_line (p : GitRemoteParser) :
  Py.startswith "author" (line (snd (read_line p))) = false ->
  Py.startswith "committer" (line (snd (read_line p))) = false ->
  Py.startswith "tagger" (line (snd (read_line p))) = false ->
  read_author p = Ok None (snd (read_line p)).
Proof.
  intros Ha Hc Ht. unfold read_author, re_match, AUTHOR_RE.
  rewrite rmatch_Seq, rmatch_Alt_right by done.
  rewrite rmatch_Alt_right by done.
  cbn [rmatch]. by rewrite Ht.
Qed.

Lemma read_author_other_line_witness :
  let p := mkParser [] "" ("data 12" +:+ String Py.newline "") in
  line (snd (read_line p)) = "data 12" /\
  read_author p = Ok None (snd (read_line p)).
Proof.
  intros p. split; [reflexivity|].
  apply (read_author_other_line p); reflexivity.
Defined.

(** ** [read_block] at the end of the input *)

Lemma read_block_at_end (sentinel : string) (fuel : nat) :
  sentinel <> "" ->
  forall (g : gen_state) (l : string),
    g <> GenDone -> (g = GenStart -> l <> sentinel) ->
    read_block fuel sentinel g (mkParser [] l "") = None.
Proof.
  intros Hs. induction fuel as [|fuel IH]; intros g l Hg Hl; [done|].
  destruct g; [| |done]; cbn [read_block read_block_next].
  - cbn [line]. rewrite decide_False by auto.
    by rewrite (IH GenYielded l).
  - change (snd (read_line (mkParser [] l ""))) with (mkParser [] "" "").
    cbn [line]. rewrite decide_False by done.
    by rewrite (IH GenYielded "").
Qed.

(** X9: a block closed by a sentinel other than the empty line, [done]
    for one, does not end when the input ends first: with the buffer
    empty, the input at its end and the current line not the sentinel,
    the generator yields line after line and no amount of fuel exhausts
    it. *)
Theorem read_block_never_ends (sentinel : string) (p : GitRemoteParser)
    (fuel : nat) :
  sentinel <> "" -> peek_stack p = [] -> stdin p = "" ->
  line p <> sentinel ->
  read_block fuel sentinel GenStart p = None.
Proof.
  intros Hs Hq Hin Hl. destruct p as [q l inp]. cbn in Hq, Hin, Hl.
  subst q inp. by apply read_block_at_end.
Qed.

Lemma read_block_never_ends_witness :
  read_block 1000 "done" GenStart (GitRemoteParser_init "commit") = None.
Proof.
  apply (read_block_never_ends "done" (GitRemoteParser_init "commit") 1000).
  - discriminate.
  - reflexivity.
  - reflexivity.
  - discriminate.
Defined.

(** ** Stripped lines *)

Lemma lstrip_fixed (s : string) :
  head_in Py.isspace s = false -> Py.lstrip s = s.
Proof. destruct s as [|c r]; [done|]. cbn. by intros ->. Qed.

Lemma rstrip_cons (c : ascii) (r : string) :
  Py.rstrip (String c r)
  = match Py.rstrip r with
    | EmptyString => if Py.isspace c then EmptyString else String c EmptyString
    | t => String c t
    end.
Proof. reflexivity. Qed.

Lemma rstrip_idempotent (s : string) : Py.rstrip (Py.rstrip s) = Py.rstrip s.
Proof.
  induction s as [|c r IH]; [done|]. rewrite rstrip_cons.
  destruct (Py.rstrip r) as [|d t] eqn:E.
  - destruct (Py.isspace c) eqn:Hc; [done|]. cbn. by rewrite Hc.
  - by rewrite rstrip_cons, IH.
Qed.

Lemma rstrip_head (s : string) :
  head_in Py.isspace s = false -> head_in Py.isspace (Py.rstrip s) = false.
Proof.
  destruct s as [|c r]; [done|]. cbn [head_in Py.rstrip]. intros Hc.
  destruct (Py.rstrip r); [by rewrite Hc|done].
Qed.

Lemma strip_stripped (s : string) : stripped (Py.strip s).
Proof.
  unfold stripped, Py.strip.
  rewrite (lstrip_fixed (Py.rstrip (Py.lstrip s))).
  - apply rstrip_idempotent.
  - apply rstrip_head, lstrip_head.
Qed.

Lemma stdin_readline_stripped (inp : string) :
  stripped (fst (stdin_readline inp)).
Proof.
  unfold stdin_readline. destruct (Py.readline inp). apply strip_stripped.
Qed.

(** X10: the parser holds stripped lines only, from its construction
    on: the current line and the buffered lines of a new parser have no
    white space to strip at either end, and [read_line] and [peek] keep
    it so. *)
Theorem parser_stripped_invariant (inp : string) (p : GitRemoteParser) :
  parser_stripped (GitRemoteParser_init inp) /\
  (parser_stripped p ->
   parser_stripped (snd (read_line p)) /\ parser_stripped (snd (peek p))).
Proof.
  split.
  - unfold GitRemoteParser_init, read_line, parser_stripped.
    cbn [peek_stack stdin].
    pose proof (stdin_readline_stripped inp) as H.
    destruct (stdin_readline inp) as [l rest].
    cbn [snd line peek_stack fst] in *.
    by apply Forall_cons.
  - unfold parser_stripped. intros Hp.
    apply Forall_cons in Hp as [Hl Hq]. split.
    + unfold read_line. destruct (peek_stack p) as [|l q].
      * pose proof (stdin_readline_stripped (stdin p)) as H.
        destruct (stdin_readline (stdin p)) as [l rest].
        cbn [snd line peek_stack fst] in *. by apply Forall_cons.
      * cbn [snd line peek_stack]. apply Forall_cons in Hq as [Hl' Hq].
        by apply Forall_cons.
    + unfold peek.
      pose proof (stdin_readline_stripped (stdin p)) as H.
      destruct (stdin_readline (stdin p)) as [l rest].
      cbn [snd line peek_stack fst] in *. apply Forall_cons. split; [done|].
      apply Forall_app. split; [done|]. by apply Forall_cons.
Qed.

Lemma parser_stripped_invariant_witness :
  let p := mkParser ["list"] "capabilities"
             ("  import x  " +:+ String Py.newline "") in
  parser_stripped p /\
  parser_stripped (snd (read_line p)) /\ parser_stripped (snd (peek p)).
Proof.
  intros p.
  assert (parser_stripped p) as Hp.
  { apply Forall_cons. split; [reflexivity|].
    apply Forall_cons. split; [reflexivity|]. by apply Forall_nil. }
  split; [exact Hp|].
  exact (proj2 (parser_stripped_invariant "" p) Hp).
Defined.

Lemma stripped_token (l : string) :
  stripped l -> l <> "" -> is_Some (Py.first_token l).
Proof.
  unfold stripped. intros Hs Hne. rewrite <- Hs in Hne |- *.
  by apply first_token_stripped.
Qed.

(** X11: a line that [read_block] yields with the empty sentinel, from
    a parser that holds stripped lines, starts with a token, so that
    [line.split()[0]] in the command loop finds one; and the parser
    still holds stripped lines afterwards. *)
Theorem read_block_line_has_token (p p' : GitRemoteParser)
    (g g' : gen_state) (l : string) :
  parser_stripped p ->
  read_block_next "" g p = (Some l, g', p') ->
  is_Some (Py.first_token l) /\ parser_stripped p'.
Proof.
  intros Hp Hnext. destruct g; cbn [read_block_next] in Hnext.
  - destruct (decide (line p = "")) as [|Hne]; [done|].
    injection Hnext as <- <- <-. split; [|done].
    apply stripped_token; [|done].
    unfold parser_stripped in Hp. by apply Forall_cons in Hp as [Hl _].
  - destruct (decide (line (snd (read_line p)) = "")) as [|Hne]; [done|].
    injection Hnext as <- <- <-.
    assert (parser_stripped (snd (read_line p))) as Hp'.
    { unfold parser_stripped in *. apply Forall_cons in Hp as [Hl Hq].
      unfold read_line. destruct (peek_stack p) as [|l q].
      - pose proof (stdin_readline_stripped (stdin p)) as H.
        destruct (stdin_readline (stdin p)) as [l rest].
        cbn [snd line peek_stack fst] in *. by apply Forall_cons.
      - cbn [snd line peek_stack]. apply Forall_cons in Hq as [Hl' Hq].
        by apply Forall_cons. }
    split; [|done]. apply stripped_token; [|done].
    unfold parser_stripped in Hp'. by apply Forall_cons in Hp' as [Hl _].
  - done.
Qed.

Lemma read_block_line_has_token_witness :
  let p := GitRemoteParser_init
             ("  list for-push " +:+ String Py.newline "") in
  parser_stripped p /\
  read_block_next "" GenStart p = (Some "list for-push", GenYielded, p) /\
  is_Some (Py.first_token "list for-push").
Proof.
  intros p.
  assert (parser_stripped p) as Hp.
  { apply Forall_cons. split; [reflexivity|]. by apply Forall_nil. }
  split; [exact Hp|]. split; [reflexivity|].
  exact (proj1 (read_block_line_has_token p p GenStart GenYielded
                  "list for-push" Hp eq_refl)).
Defined.

(** * Further properties of the session *)

(** ** The head line of [do_list] *)

(** X12: on a repository with revisions the head line of the response
    names the current bookmark when one is checked out, as it is, with
    neither renaming nor escaping; without current bookmark it names
    the current branch, [default] under the name [master]. *)
Theorem do_list_head_line (hg_to_git_spaces : string -> string)
    (self : HGRemote) :
  repo_consistent (repo self) -> ~ empty_repository (repo self) ->
  exists self' rest,
    do_list hg_to_git_spaces self = Ok tt self'
    /\ stdout self'
       = stdout self
         ++ ("@refs/heads/" +:+ published_head (repo self) +:+ " HEAD")
            :: rest
    /\ fst <$> headnode self' = Some (published_head (repo self)).
Proof.
  intros Hcons Hne.
  destruct (do_list_response hg_to_git_spaces self Hcons Hne)
    as (head & node & bm & br & Hres & _ & _ & _ & Hrun).
  destruct (resolve_head_run self Hcons Hne) as [node' Hres'].
  rewrite Hres' in Hres. injection Hres as Hhead _.
  fold (published_head (repo self)) in Hhead. subst head.
  eexists. eexists. split; [exact Hrun|].
  rewrite stdout_emit. split; by destruct self.
Qed.

Lemma bookmarked_repo_consistent : repo_consistent bookmarked_repo.
Proof.
  split.
  { intros b H. injection H as <-. exists (mkCtx 3 "abc123"). reflexivity. }
  split; [exists (mkCtx 3 "abc123"); reflexivity|].
  split; [intros H; discriminate H|].
  intros b n H. exists (mkCtx 3 "abc123").
  cbn [bookmarked_repo listbookmarks] in H.
  apply lookup_insert_Some in H as [[_ <-]|[_ H]]; [reflexivity|].
  by rewrite lookup_empty in H.
Defined.

Lemma bookmarked_repo_not_empty : ~ empty_repository bookmarked_repo.
Proof. intros (H & _). discriminate H. Defined.

Lemma do_list_head_line_witness :
  repo_consistent bookmarked_repo /\ ~ empty_repository bookmarked_repo /\
  exists self' rest,
    do_list (escape_spaces "___") (example_session bookmarked_repo)
    = Ok tt self'
    /\ stdout self' = "@refs/heads/work in progress HEAD" :: rest.
Proof.
  split; [exact bookmarked_repo_consistent|].
  split; [exact bookmarked_repo_not_empty|].
  destruct (do_list_head_line (escape_spaces "___")
              (example_session bookmarked_repo) bookmarked_repo_consistent
              bookmarked_repo_not_empty)
    as (self' & rest & Hrun & Hout & _).
  exists self', rest. split; [exact Hrun|exact Hout].
Defined.

(** ** [do_list] and its tables *)

Lemma resolve_head_outcome (h : HGRemote) :
  (exists r, resolve_head h = Ok r h)
  \/ (exists key, resolve_head h = Raise (LookupError key) h).
Proof.
  unfold resolve_head, lookup_rev. rewrite bind_run. cbn [get].
  destruct (name_truth (readcurrent (repo h))).
  - rewrite bind_run.
    destruct (repo_lookup (repo h) _);
      [left|right]; eexists; reflexivity.
  - rewrite bind_run.
    destruct (repo_lookup (repo h) ".") as [c|];
      [|right; eexists; reflexivity].
    destruct (negb (ctx_truth c)); [|left; eexists; reflexivity].
    destruct (repo_contains (repo h) "default");
      [|left; eexists; reflexivity].
    rewrite bind_run.
    destruct (repo_lookup (repo h) "default");
      [left|right]; eexists; reflexivity.
Qed.

(** [resolve_head] reads the repository only. *)
Lemma resolve_head_same_repo (h h2 : HGRemote) r :
  repo h2 = repo h -> resolve_head h = Ok r h -> resolve_head h2 = Ok r h2.
Proof.
  intros Hr. unfold resolve_head, lookup_rev. rewrite !bind_run. cbn [get].
  rewrite Hr.
  destruct (name_truth (readcurrent (repo h))).
  - rewrite !bind_run. rewrite Hr.
    destruct (repo_lookup (repo h) _); [|done].
    cbn [mret M_ret]. by intros [= <-].
  - rewrite !bind_run. rewrite Hr.
    destruct (repo_lookup (repo h) ".") as [c|]; [|done].
    destruct (negb (ctx_truth c)); [|cbn [mret M_ret]; by intros [= <-]].
    destruct (repo_contains (repo h) "default");
      [|cbn [mret M_ret]; by intros [= <-]].
    rewrite !bind_run. rewrite Hr.
    destruct (repo_lookup (repo h) "default"); [|done].
    cbn [mret M_ret]. by intros [= <-].
Qed.

Lemma update_bookmarks_loop_outcome (l : list (string * string)) :
  forall h : HGRemote,
  (exists bm,
     for_each l (fun '(bookmark, node) =>
       c ← lookup_rev node;
       modify (fun h => set_bookmarks (<[bookmark := c]> (bookmarks h)) h)) h
     = Ok tt (set_bookmarks bm h))
  \/ (exists key bm,
     for_each l (fun '(bookmark, node) =>
       c ← lookup_rev node;
       modify (fun h => set_bookmarks (<[bookmark := c]> (bookmarks h)) h)) h
     = Raise (LookupError key) (set_bookmarks bm h)).
Proof.
  induction l as [|[b n] l IH]; intros h; cbn [for_each].
  - left. exists (bookmarks h). by destruct h.
  - rewrite !bind_run. unfold lookup_rev at 1 3.
    destruct (repo_lookup (repo h) n) as [c|].
    + cbn [modify].
      destruct (IH (set_bookmarks (<[b := c]> (bookmarks h)) h))
        as [[bm Hrun]|(key & bm & Hrun)]; rewrite Hrun, set_bookmarks_twice.
      * left. eauto.
      * right. eauto.
    + right. exists n, (bookmarks h). by destruct h.
Qed.

Lemma update_bookmarks_outcome (h : HGRemote) :
  (exists bm, update_bookmarks h = Ok tt (set_bookmarks bm h))
  \/ (exists key bm,
        update_bookmarks h = Raise (LookupError key) (set_bookmarks bm h)).
Proof.
  unfold update_bookmarks. rewrite bind_run. cbn [get].
  apply update_bookmarks_loop_outcome.
Qed.

(** X13: when [do_list] raises, it is a [LookupError] of the repository
    and nothing was written: all revisions are looked up before the
    first line of the response, so a response is written whole or not
    at all. *)
Theorem do_list_raises_before_output (hg_to_git_spaces : string -> string)
    (self s' : HGRemote) (e : exn) :
  do_list hg_to_git_spaces self = Raise e s' ->
  stdout s' = stdout self /\ exists key, e = LookupError key.
Proof.
  unfold do_list. rewrite bind_run.
  destruct (resolve_head_outcome self) as [[r Hr]|[key Hr]]; rewrite Hr.
  2:{ intros [= <- <-]. eauto. }
  destruct r as [[head node]|]; [|by rewrite output_run].
  rewrite bind_run. cbn [modify]. rewrite bind_run.
  destruct (update_bookmarks_outcome (set_headnode (head, node) self))
    as [[bm Hbm]|(key & bm & Hbm)]; rewrite Hbm.
  2:{ intros [= <- <-]. split; [by destruct self|eauto]. }
  rewrite bind_run.
  destruct (update_branches_run hg_to_git_spaces
              (set_bookmarks bm (set_headnode (head, node) self)))
    as (br & Hbr & _). rewrite Hbr.
  rewrite bind_run, output_run.
  rewrite bind_run, list_branches_run.
  rewrite bind_run, list_bookmarks_run.
  rewrite bind_run, list_tags_run.
  by rewrite output_run.
Qed.

Lemma do_list_raises_before_output_witness :
  exists s',
    do_list (escape_spaces "___") (example_session dangling_repo)
    = Raise (LookupError "ffffff") s'
    /\ stdout s' = stdout (example_session dangling_repo).
Proof.
  eexists. split; [vm_compute; reflexivity|].
  refine (proj1 (do_list_raises_before_output (escape_spaces "___")
                   (example_session dangling_repo) _ (LookupError "ffffff")
                   _)).
  vm_compute. reflexivity.
Defined.

(** X14: [do_list] never drops an entry from the session's tables: a
    bookmark or a branch that the session knew before the call is
    still in the tables afterwards and still gets its line in the
    response, whether the repository still reports it or not. *)
Theorem do_list_keeps_entries (hg_to_git_spaces : string -> string)
    (self : HGRemote) :
  repo_consistent (repo self) -> ~ empty_repository (repo self) ->
  exists self' resp,
    do_list hg_to_git_spaces self = Ok tt self'
    /\ stdout self' = stdout self ++ resp
    /\ dom (bookmarks self) ⊆ dom (bookmarks self')
    /\ dom (branches self) ⊆ dom (branches self')
    /\ (forall b, b ∈ dom (bookmarks self) -> b <> "master" ->
          "? refs/heads/" +:+ hg_to_git_spaces b ∈ resp)
    /\ (forall b, b ∈ dom (branches self) -> b <> "default" ->
          "? refs/heads/branches/" +:+ hg_to_git_spaces b ∈ resp).
Proof.
  intros Hcons Hne.
  destruct (do_list_response hg_to_git_spaces self Hcons Hne)
    as (head & node & bm & br & Hres & Hdbm & Hsub & Hin & Hrun).
  eexists. eexists. split; [exact Hrun|].
  rewrite stdout_emit.
  assert (forall ls, bookmarks (emit ls (set_branches br
            (set_bookmarks bm (set_headnode (head, node) self)))) = bm)
    as -> by (intros; by destruct self).
  assert (forall ls, branches (emit ls (set_branches br
            (set_bookmarks bm (set_headnode (head, node) self)))) = br)
    as -> by (intros; by destruct self).
  split; [by destruct self|]. split; [rewrite Hdbm; set_solver|].
  split; [done|]. split.
  - intros b Hb Hm. rewrite !elem_of_app. right. right. left.
    apply elem_of_listed_bookmarks. exists b.
    split; [rewrite Hdbm; set_solver|done].
  - intros b Hb Hd. rewrite !elem_of_app. right. left.
    apply elem_of_listed_branches. exists b. split; [set_solver|].
    by rewrite decide_False.
Qed.

Lemma do_list_keeps_entries_witness :
  let self := set_bookmarks (<["gone" := mkCtx 1 "0123ab"]> ∅)
                (example_session example_repo) in
  exists self' resp,
    do_list (escape_spaces "___") self = Ok tt self'
    /\ stdout self' = stdout self ++ resp
    /\ "? refs/heads/gone" ∈ resp.
Proof.
  intros self.
  destruct (do_list_keeps_entries (escape_spaces "___") self
              example_repo_consistent example_repo_not_empty)
    as (self' & resp & Hrun & Hout & _ & _ & Hbm & _).
  exists self', resp. split; [exact Hrun|]. split; [exact Hout|].
  apply (Hbm "gone").
  - apply elem_of_dom. exists (mkCtx 1 "0123ab"). apply lookup_insert_eq.
  - discriminate.
Defined.

Lemma set_bookmarks_same (h : HGRemote) : set_bookmarks (bookmarks h) h = h.
Proof. by destruct h. Qed.

Lemma set_branches_same (h : HGRemote) : set_branches (branches h) h = h.
Proof. by destruct h. Qed.

(** A table that holds the repository's bookmarks already is left as it
    is by the loop of [update_bookmarks]. *)
Lemma update_bookmarks_loop_fixed (l : list (string * string)) :
  forall h : HGRemote,
  (forall b n, (b, n) ∈ l ->
     exists c, repo_lookup (repo h) n = Some c /\ bookmarks h !! b = Some c) ->
  for_each l (fun '(bookmark, node) =>
    c ← lookup_rev node;
    modify (fun h => set_bookmarks (<[bookmark := c]> (bookmarks h)) h)) h
  = Ok tt h.
Proof.
  induction l as [|[b n] l IH]; intros h Hl; cbn [for_each]; [done|].
  destruct (Hl b n) as (c & Hc & Hb); [left|].
  rewrite !bind_run. unfold lookup_rev at 1. rewrite Hc. cbn [modify].
  rewrite (insert_id _ _ _ Hb), set_bookmarks_same.
  apply IH. intros b' n' Hin. apply Hl. by right.
Qed.

(** What the loop of [update_bookmarks] leaves in the table. *)
Lemma update_bookmarks_loop_values (l : list (string * string)) :
  forall h h' : HGRemote,
  NoDup l.*1 ->
  for_each l (fun '(bookmark, node) =>
    c ← lookup_rev node;
    modify (fun h => set_bookmarks (<[bookmark := c]> (bookmarks h)) h)) h
  = Ok tt h' ->
  (forall b n, (b, n) ∈ l ->
     exists c, repo_lookup (repo h) n = Some c /\ bookmarks h' !! b = Some c)
  /\ (forall k, k ∉ l.*1 -> bookmarks h' !! k = bookmarks h !! k)
  /\ h' = set_bookmarks (bookmarks h') h.
Proof.
  induction l as [|[b n] l IH]; intros h h' Hnd Hrun; cbn [for_each] in Hrun.
  - injection Hrun as <-. split; [|split].
    + intros b n Hin. by apply elem_of_nil in Hin.
    + done.
    + by rewrite set_bookmarks_same.
  - rewrite fmap_cons in Hnd. cbn [fst] in Hnd.
    apply NoDup_cons in Hnd as [Hb Hnd].
    rewrite !bind_run in Hrun. unfold lookup_rev at 1 in Hrun.
    destruct (repo_lookup (repo h) n) as [c|] eqn:Hc; [|done].
    cbn [modify] in Hrun.
    destruct (IH _ _ Hnd Hrun) as (Hval & Hother & Hh').
    assert (repo (set_bookmarks (<[b:=c]> (bookmarks h)) h) = repo h)
      as Hrepo by (by destruct h).
    assert (bookmarks (set_bookmarks (<[b:=c]> (bookmarks h)) h)
            = <[b:=c]> (bookmarks h)) as Hbk by (by destruct h).
    rewrite Hrepo in Hval. rewrite Hbk in Hother.
    split; [|split].
    + intros b' n' Hin. apply elem_of_cons in Hin as [[= -> ->]|Hin].
      * exists c. split; [done|]. rewrite (Hother b Hb).
        apply lookup_insert_eq.
      * by apply Hval.
    + intros k Hk. rewrite fmap_cons in Hk. cbn [fst] in Hk.
      apply not_elem_of_cons in Hk as [Hkb Hk].
      rewrite (Hother k Hk). by apply lookup_insert_ne.
    + rewrite Hh' at 1. by rewrite set_bookmarks_twice.
Qed.

Lemma update_branches_loop_fixed (r : Repo) (l : list string) :
  forall h : HGRemote,
  (forall b, b ∈ l -> branchheads r b <> [] ->
     branches h !! b = Some (branchheads r b)) ->
  for_each l (fun branch =>
    match branchheads r branch with
    | [] => mret tt
    | _ => modify (fun h =>
             set_branches (<[branch := branchheads r branch]> (branches h)) h)
    end) h
  = Ok tt h.
Proof.
  induction l as [|b l IH]; intros h Hl; cbn [for_each]; [done|].
  rewrite bind_run. cbn beta.
  assert (b ∈ b :: l) as Hb by left. specialize (Hl b Hb) as Hval.
  destruct (branchheads r b) as [|x hs] eqn:E.
  - cbn [mret M_ret]. apply IH. intros b' Hb'. apply Hl. by right.
  - cbn [modify].
    assert (branches h !! b = Some (x :: hs)) as Hv by (by apply Hval).
    rewrite (insert_id _ _ _ Hv), set_branches_same.
    apply IH. intros b' Hb'. apply Hl. by right.
Qed.

Lemma update_branches_loop_values (r : Repo) (l : list string) :
  forall h h' : HGRemote,
  NoDup l ->
  for_each l (fun branch =>
    match branchheads r branch with
    | [] => mret tt
    | _ => modify (fun h =>
             set_branches (<[branch := branchheads r branch]> (branches h)) h)
    end) h
  = Ok tt h' ->
  (forall b, b ∈ l -> branchheads r b <> [] ->
     branches h' !! b = Some (branchheads r b))
  /\ (forall k, k ∉ l -> branches h' !! k = branches h !! k)
  /\ h' = set_branches (branches h') h.
Proof.
  induction l as [|b l IH]; intros h h' Hnd Hrun; cbn [for_each] in Hrun.
  - injection Hrun as <-. split; [|split].
    + intros b Hin. by apply elem_of_nil in Hin.
    + done.
    + by rewrite set_branches_same.
  - apply NoDup_cons in Hnd as [Hb Hnd].
    rewrite bind_run in Hrun. cbn beta in Hrun.
    destruct (branchheads r b) as [|x hs] eqn:E.
    + cbn [mret M_ret] in Hrun.
      destruct (IH _ _ Hnd Hrun) as (Hval & Hother & Hh').
      split; [|split; [|done]].
      * intros b' Hin Hne. apply elem_of_cons in Hin as [->|Hin];
          [congruence|by apply Hval].
      * intros k Hk. apply not_elem_of_cons in Hk as [_ Hk]. by apply Hother.
    + cbn [modify] in Hrun.
      destruct (IH _ _ Hnd Hrun) as (Hval & Hother & Hh').
      assert (branches (set_branches (<[b:=x :: hs]> (branches h)) h)
              = <[b:=x :: hs]> (branches h)) as Hbr by (by destruct h).
      rewrite Hbr in Hother.
      split; [|split].
      * intros b' Hin Hne. apply elem_of_cons in Hin as [->|Hin].
        -- rewrite (Hother b Hb), E. apply lookup_insert_eq.
        -- by apply Hval.
      * intros k Hk. apply not_elem_of_cons in Hk as [Hkb Hk].
        rewrite (Hother k Hk). by apply lookup_insert_ne.
      * rewrite Hh' at 1. by rewrite set_branches_twice.
Qed.

Lemma update_bookmarks_settled (h h' : HGRemote) :
  update_bookmarks h = Ok tt h' ->
  h' = set_bookmarks (bookmarks h') h
  /\ forall b n, listbookmarks (repo h) !! b = Some n ->
       exists c, repo_lookup (repo h) n = Some c /\ bookmarks h' !! b = Some c.
Proof.
  unfold update_bookmarks. rewrite bind_run. cbn [get]. intros Hrun.
  destruct (update_bookmarks_loop_values _ h h'
              (NoDup_fst_map_to_list _) Hrun) as (Hval & _ & Hh').
  split; [done|]. intros b n Hb. apply Hval. by apply elem_of_map_to_list.
Qed.

Lemma update_bookmarks_again (h : HGRemote) :
  (forall b n, listbookmarks (repo h) !! b = Some n ->
     exists c, repo_lookup (repo h) n = Some c /\ bookmarks h !! b = Some c) ->
  update_bookmarks h = Ok tt h.
Proof.
  intros H. unfold update_bookmarks. rewrite bind_run. cbn [get].
  apply update_bookmarks_loop_fixed. intros b n Hin. apply H.
  by apply elem_of_map_to_list.
Qed.

Lemma update_branches_settled (h h' : HGRemote) :
  update_branches h = Ok tt h' ->
  h' = set_branches (branches h') h
  /\ forall b, b ∈ dom (branchmap (repo h)) ->
       branchheads (repo h) b <> [] ->
       branches h' !! b = Some (branchheads (repo h) b).
Proof.
  unfold update_branches. rewrite bind_run. cbn [get]. intros Hrun.
  destruct (update_branches_loop_values (repo h) _ h h'
              (NoDup_fst_map_to_list _) Hrun) as (Hval & _ & Hh').
  split; [done|]. intros b Hb. apply Hval. by apply elem_of_keys.
Qed.

Lemma update_branches_again (h : HGRemote) :
  (forall b, b ∈ dom (branchmap (repo h)) ->
     branchheads (repo h) b <> [] ->
     branches h !! b = Some (branchheads (repo h) b)) ->
  update_branches h = Ok tt h.
Proof.
  intros H. unfold update_branches. rewrite bind_run. cbn [get].
  apply (update_branches_loop_fixed (repo h)). intros b Hin. apply H.
  by apply elem_of_keys.
Qed.

Lemma branches_emit ls (h : HGRemote) : branches (emit ls h) = branches h.
Proof. by destruct h. Qed.

Lemma bookmarks_emit ls (h : HGRemote) : bookmarks (emit ls h) = bookmarks h.
Proof. by destruct h. Qed.

Lemma repo_emit ls (h : HGRemote) : repo (emit ls h) = repo h.
Proof. by destruct h. Qed.

(** X15: a [list] command can be repeated: when [do_list] has returned,
    a second call in the resulting session returns as well, writes the
    same response once more and leaves the head and the tables of the
    session as the first call set them. *)
Theorem do_list_repeatable (hg_to_git_spaces : string -> string)
    (self s1 : HGRemote) :
  do_list hg_to_git_spaces self = Ok tt s1 ->
  exists resp,
    stdout s1 = stdout self ++ resp
    /\ do_list hg_to_git_spaces s1 = Ok tt (emit resp s1).
Proof.
  intros Hrun. unfold do_list in Hrun. rewrite bind_run in Hrun.
  destruct (resolve_head_outcome self) as [[r Hr]|[key Hr]];
    rewrite Hr in Hrun; [|done].
  destruct r as [[head node]|].
  - rewrite bind_run in Hrun. cbn [modify] in Hrun.
    set (h1 := set_headnode (head, node) self) in *.
    rewrite bind_run in Hrun.
    destruct (update_bookmarks h1) as [[] h2|] eqn:Hbm; [|done].
    rewrite bind_run in Hrun.
    destruct (update_branches h2) as [[] h3|] eqn:Hbr; [|done].
    rewrite bind_run, output_run in Hrun.
    rewrite bind_run, list_branches_run, emit_emit in Hrun.
    rewrite bind_run, list_bookmarks_run, emit_emit in Hrun.
    rewrite bind_run, list_tags_run, emit_emit in Hrun.
    rewrite output_run, emit_emit in Hrun. injection Hrun as Hs1.
    destruct (update_bookmarks_settled h1 h2 Hbm) as (Hh2 & Hbmv).
    destruct (update_branches_settled h2 h3 Hbr) as (Hh3 & Hbrv).
    set (bm := bookmarks h2) in *. set (br := branches h3) in *.
    assert (forall ls, repo (emit ls h3) = repo self) as Hrepo
      by (intros; rewrite Hh3, Hh2; by destruct self).
    assert (forall ls, bookmarks (emit ls h3) = bm) as Hbm3
      by (intros; rewrite Hh3, Hh2; by destruct self).
    assert (forall ls, branches (emit ls h3) = br) as Hbr3
      by (intros; rewrite Hh3, Hh2; by destruct self).
    assert (repo h1 = repo self) as Hrepo1 by (by destruct self).
    assert (repo h2 = repo self) as Hrepo2 by (rewrite Hh2; by destruct self).
    rewrite Hrepo1 in Hbmv. rewrite Hrepo2 in Hbrv.
    assert (bookmarks h3 = bm) as Hbm0
      by (rewrite Hh3, Hh2; by destruct self).
    assert (repo h3 = repo self) as Hrepo0
      by (rewrite Hh3, Hh2; by destruct self).
    rewrite Hbm0, Hrepo0 in Hs1.
    assert (repo s1 = repo self) as Hrs by (rewrite <- Hs1; apply Hrepo).
    assert (bookmarks s1 = bm) as Hbs by (rewrite <- Hs1; apply Hbm3).
    assert (branches s1 = br) as Hbrs by (rewrite <- Hs1; apply Hbr3).
    assert (set_headnode (head, node) s1 = s1) as Hhs
      by (rewrite <- Hs1, Hh3, Hh2; by destruct self).
    eexists. split; [rewrite <- Hs1, stdout_emit, Hh3, Hh2; by destruct self|].
    unfold do_list. rewrite bind_run.
    rewrite (resolve_head_same_repo self s1 _ Hrs Hr).
    rewrite bind_run. cbn [modify]. rewrite Hhs.
    rewrite bind_run, update_bookmarks_again
      by (rewrite Hrs, Hbs; exact Hbmv).
    rewrite bind_run, update_branches_again
      by (rewrite Hrs, Hbrs; exact Hbrv).
    rewrite bind_run, output_run.
    rewrite bind_run, list_branches_run, emit_emit.
    rewrite bind_run, list_bookmarks_run, emit_emit.
    rewrite bind_run, list_tags_run, emit_emit.
    rewrite output_run, emit_emit.
    rewrite !branches_emit, !bookmarks_emit, !repo_emit, Hbrs, Hbs, Hrs.
    by rewrite <- !app_assoc.
  - rewrite output_run in Hrun. injection Hrun as <-.
    exists [""]. split; [by destruct self|].
    unfold do_list. rewrite bind_run.
    rewrite (resolve_head_same_repo self (emit [""] self) None
               ltac:(by destruct self) Hr).
    apply output_run.
Qed.

Lemma do_list_repeatable_witness :
  exists s1 resp,
    do_list (escape_spaces "___") (example_session example_repo) = Ok tt s1
    /\ stdout s1 = stdout (example_session example_repo) ++ resp
    /\ do_list (escape_spaces "___") s1 = Ok tt (emit resp s1).
Proof.
  destruct (do_list (escape_spaces "___") (example_session example_repo))
    as [[] s1|e s1] eqn:Hrun.
  - destruct (do_list_repeatable (escape_spaces "___")
                (example_session example_repo) s1 Hrun) as (resp & H1 & H2).
    exists s1, resp. split; [reflexivity|]. split; [exact H1|exact H2].
  - exfalso. vm_compute in Hrun. discriminate Hrun.
Defined.

(** ** A session of [capabilities] and [list] commands *)

Lemma read_lines_snoc (n : nat) (p : GitRemoteParser) :
  snd (read_line (snd (read_lines n p))) = snd (read_lines (S n) p).
Proof.
  replace (S n) with (n + 1)%nat by lia. rewrite read_lines_add.
  cbn [read_lines]. by destruct (read_line _).
Qed.

Section LocalSession.
Variable hg_to_git_spaces : string -> string.
Variable do_import : M (GitRemoteParser * HGRemote) unit.
Variable do_export : M (GitRemoteParser * HGRemote) unit.
Variable marks_store : M HGRemote unit.

Lemma process_command_local (l : string) (st : GitRemoteParser * HGRemote) :
  local_command l ->
  process_command hg_to_git_spaces do_import do_export l st
  = on_self (local_handler hg_to_git_spaces l) st.
Proof.
  unfold process_command, local_handler.
  intros [H|H]; rewrite H, bind_run;
    rewrite decide_True by (unfold commands; set_solver); reflexivity.
Qed.

Lemma local_command_not_blank (l : string) : local_command l -> l <> "".
Proof. intros [H|H] ->; discriminate H. Qed.

Lemma process_loop_resumed (ls : list string) :
  forall (p : GitRemoteParser) (self self' : HGRemote) (fuel : nat),
  Forall local_command ls ->
  (forall i l, ls !! i = Some l -> line_at (S i) p = l) ->
  line_at (S (length ls)) p = "" ->
  for_each ls (local_handler hg_to_git_spaces) self = Ok tt self' ->
  (length ls < fuel)%nat ->
  process_loop hg_to_git_spaces do_import do_export marks_store fuel
    GenYielded (p, self)
  = Some (on_self marks_store (snd (read_lines (S (length ls)) p), self')).
Proof.
  induction ls as [|l ls IH]; intros p self self' fuel Hloc Hls Hend Hrun Hfuel;
    (destruct fuel as [|fuel]; [cbn in Hfuel; lia|]);
    cbn [process_loop read_block_next fst snd].
  - rewrite line_at_S in Hend. unfold line_at in Hend. cbn in Hend.
    rewrite decide_True by done. injection Hrun as <-.
    by rewrite read_lines_S_snd.
  - apply Forall_cons in Hloc as [Hl Hloc].
    pose proof (Hls 0%nat l eq_refl) as Hl1. rewrite line_at_S in Hl1.
    unfold line_at in Hl1. cbn in Hl1.
    rewrite decide_False
      by (rewrite Hl1; by apply local_command_not_blank).
    rewrite Hl1, (process_command_local l _ Hl).
    cbn [for_each] in Hrun. rewrite bind_run in Hrun. cbn [on_self].
    destruct (local_handler hg_to_git_spaces l self) as [[] s1|e s1];
      [|done].
    rewrite (IH (snd (read_line p)) s1 self' fuel); try done.
    + cbn [length]. by rewrite (read_lines_S_snd (S (length ls))).
    + intros i l' Hi. rewrite <- line_at_S. by apply (Hls (S i)).
    + by rewrite <- line_at_S.
    + cbn [length] in Hfuel. lia.
Qed.

(** X16: a session of [capabilities] and [list] commands closed by a
    blank line or by the end of the input: when the handlers return,
    the command loop runs them in the order of the lines, reads no
    further than the closing line, and then stores the marks, once. *)
Theorem process_local_session (ls : list string) (p : GitRemoteParser)
    (self self' : HGRemote) (fuel : nat) :
  Forall local_command ls ->
  (forall i l, ls !! i = Some l -> line_at i p = l) ->
  line_at (length ls) p = "" ->
  for_each ls (local_handler hg_to_git_spaces) self = Ok tt self' ->
  (length ls < fuel)%nat ->
  process_loop hg_to_git_spaces do_import do_export marks_store fuel
    GenStart (p, self)
  = Some (on_self marks_store (snd (read_lines (length ls) p), self')).
Proof.
  intros Hloc Hls Hend Hrun Hfuel.
  destruct fuel as [|fuel]; [lia|].
  destruct ls as [|l ls].
  - cbn [process_loop read_block_next fst snd].
    unfold line_at in Hend. cbn in Hend. rewrite decide_True by done.
    by injection Hrun as <-.
  - apply Forall_cons in Hloc as [Hl Hloc].
    pose proof (Hls 0%nat l eq_refl) as Hl0.
    unfold line_at in Hl0. cbn in Hl0.
    change (process_loop hg_to_git_spaces do_import do_export marks_store
              (S fuel) GenStart (p, self))
      with (match read_block_next "" GenStart p with
            | (None, _, parser) => Some (on_self marks_store (parser, self))
            | (Some line, g', parser) =>
                match process_command hg_to_git_spaces do_import do_export
                        line (parser, self) with
                | Ok _ st' =>
                    process_loop hg_to_git_spaces do_import do_export
                      marks_store fuel g' st'
                | Raise e st' => Some (Raise e st')
                end
            end).
    cbn [read_block_next].
    rewrite decide_False
      by (rewrite Hl0; by apply local_command_not_blank).
    rewrite Hl0, (process_command_local l _ Hl).
    cbn [for_each] in Hrun. rewrite bind_run in Hrun. cbn [on_self].
    destruct (local_handler hg_to_git_spaces l self) as [[] s1|e s1];
      [|done].
    apply (process_loop_resumed ls p s1 self' fuel); try done.
    + intros i l' Hi. by apply (Hls (S i)).
    + cbn [length] in Hfuel. lia.
Qed.

Lemma process_command_unknown (l c : string)
    (st : GitRemoteParser * HGRemote) :
  Py.first_token l = Some c -> c ∉ commands ->
  process_command hg_to_git_spaces do_import do_export l st
  = Raise (SystemExit ("unhandled command: " +:+ l)) st.
Proof.
  intros Hc Hn. unfold process_command. rewrite Hc, bind_run.
  by rewrite decide_False.
Qed.

(** The loop, resumed, works through a run of local commands. *)
Lemma process_loop_local_prefix (ls : list string) :
  forall (p : GitRemoteParser) (self self' : HGRemote) (fuel : nat),
  Forall local_command ls ->
  (forall i l, ls !! i = Some l -> line_at (S i) p = l) ->
  for_each ls (local_handler hg_to_git_spaces) self = Ok tt self' ->
  process_loop hg_to_git_spaces do_import do_export marks_store
    (length ls + fuel) GenYielded (p, self)
  = process_loop hg_to_git_spaces do_import do_export marks_store
      fuel GenYielded (snd (read_lines (length ls) p), self').
Proof.
  induction ls as [|l ls IH]; intros p self self' fuel Hloc Hls Hrun.
  - by injection Hrun as <-.
  - apply Forall_cons in Hloc as [Hl Hloc].
    pose proof (Hls 0%nat l eq_refl) as Hl1. rewrite line_at_S in Hl1.
    unfold line_at in Hl1. cbn in Hl1.
    change (length (l :: ls) + fuel)%nat with (S (length ls + fuel)).
    cbn [process_loop read_block_next fst snd].
    rewrite decide_False
      by (rewrite Hl1; by apply local_command_not_blank).
    rewrite Hl1, (process_command_local l _ Hl).
    cbn [for_each] in Hrun. rewrite bind_run in Hrun. cbn [on_self].
    destruct (local_handler hg_to_git_spaces l self) as [[] s1|e s1];
      [|done].
    rewrite (IH (snd (read_line p)) s1 self' fuel); try done.
    + cbn [length]. by rewrite (read_lines_S_snd (length ls)).
    + intros i l' Hi. rewrite <- line_at_S. by apply (Hls (S i)).
Qed.

(** X17: a line that is no command, after a run of [capabilities] and
    [list] commands whose handlers return: the responses of the run
    are written, the loop ends with the fatal error that names the
    line, and the marks are not stored. *)
Theorem process_violation_after_session (ls : list string) (bad c : string)
    (p : GitRemoteParser) (self self' : HGRemote) (fuel : nat) :
  Forall local_command ls ->
  (forall i l, ls !! i = Some l -> line_at i p = l) ->
  line_at (length ls) p = bad ->
  Py.first_token bad = Some c -> c ∉ commands ->
  for_each ls (local_handler hg_to_git_spaces) self = Ok tt self' ->
  (length ls < fuel)%nat ->
  process_loop hg_to_git_spaces do_import do_export marks_store fuel
    GenStart (p, self)
  = Some (Raise (SystemExit ("unhandled command: " +:+ bad))
            (snd (read_lines (length ls) p), self')).
Proof.
  intros Hloc Hls Hend Hc Hn Hrun Hfuel.
  assert (bad <> "") as Hbad by (intros ->; discriminate Hc).
  destruct fuel as [|fuel]; [lia|].
  change (process_loop hg_to_git_spaces do_import do_export marks_store
            (S fuel) GenStart (p, self))
    with (match read_block_next "" GenStart p with
          | (None, _, parser) => Some (on_self marks_store (parser, self))
          | (Some line, g', parser) =>
              match process_command hg_to_git_spaces do_import do_export
                      line (parser, self) with
              | Ok _ st' =>
                  process_loop hg_to_git_spaces do_import do_export
                    marks_store fuel g' st'
              | Raise e st' => Some (Raise e st')
              end
          end).
  cbn [read_block_next].
  destruct ls as [|l ls].
  - unfold line_at in Hend. cbn in Hend. injection Hrun as <-.
    rewrite decide_False by (by rewrite Hend).
    by rewrite Hend, (process_command_unknown bad c _ Hc Hn).
  - apply Forall_cons in Hloc as [Hl Hloc].
    pose proof (Hls 0%nat l eq_refl) as Hl0.
    unfold line_at in Hl0. cbn in Hl0.
    rewrite decide_False
      by (rewrite Hl0; by apply local_command_not_blank).
    rewrite Hl0, (process_command_local l _ Hl).
    cbn [for_each] in Hrun. rewrite bind_run in Hrun. cbn [on_self].
    destruct (local_handler hg_to_git_spaces l self) as [[] s1|e s1];
      [|done].
    cbn [length] in Hfuel.
    replace fuel with (length ls + S (fuel - S (length ls)))%nat by lia.
    rewrite (process_loop_local_prefix ls p s1 self'); try done.
    2:{ intros i l' Hi. by apply (Hls (S i)). }
    cbn [process_loop read_block_next fst snd].
    rewrite (read_lines_snoc (length ls)).
    change (line (snd (read_lines (S (length ls)) p)))
      with (line_at (length (l :: ls)) p).
    rewrite Hend, decide_False by done.
    by rewrite (process_command_unknown bad c _ Hc Hn).
Qed.

End LocalSession.

Lemma process_local_session_witness :
  let p := GitRemoteParser_init
             ("capabilities" +:+ String Py.newline
               ("list" +:+ String Py.newline (String Py.newline "import x")))
  in
  exists self',
    for_each ["capabilities"; "list"] (local_handler (escape_spaces "___"))
      (example_session example_repo) = Ok tt self'
    /\ process_loop (escape_spaces "___") (mret tt) (mret tt) (mret tt) 5
         GenStart (p, example_session example_repo)
       = Some (Ok tt (snd (read_lines 2 p), self')).
Proof.
  intros p.
  destruct (for_each ["capabilities"; "list"]
              (local_handler (escape_spaces "___"))
              (example_session example_repo)) as [[] self'|e self'] eqn:Hrun.
  - exists self'. split; [reflexivity|].
    refine (process_local_session (escape_spaces "___") (mret tt) (mret tt)
              (mret tt) ["capabilities"; "list"] p
              (example_session example_repo) self' 5 _ _ _ Hrun _).
    + apply Forall_cons. split; [left; reflexivity|].
      apply Forall_cons. split; [right; reflexivity|]. by apply Forall_nil.
    + intros [|[|i]] l Hi; cbn in Hi; try discriminate Hi;
        injection Hi as <-; reflexivity.
    + reflexivity.
    + cbn. lia.
  - exfalso. vm_compute in Hrun. discriminate Hrun.
Defined.

Lemma process_violation_after_session_witness :
  let p := GitRemoteParser_init
             ("capabilities" +:+ String Py.newline "option verbosity 1") in
  exists self',
    for_each ["capabilities"] (local_handler (escape_spaces "___"))
      (example_session example_repo) = Ok tt self'
    /\ process_loop (escape_spaces "___") (mret tt) (mret tt) (mret tt) 5
         GenStart (p, example_session example_repo)
       = Some (Raise (SystemExit "unhandled command: option verbosity 1")
                 (snd (read_lines 1 p), self')).
Proof.
  intros p.
  destruct (for_each ["capabilities"] (local_handler (escape_spaces "___"))
              (example_session example_repo)) as [[] self'|e self'] eqn:Hrun.
  - exists self'. split; [reflexivity|].
    refine (process_violation_after_session (escape_spaces "___") (mret tt)
              (mret tt) (mret tt) ["capabilities"] "option verbosity 1"
              "option" p (example_session example_repo) self' 5
              _ _ _ _ _ Hrun _).
    + apply Forall_cons. split; [left; reflexivity|]. by apply Forall_nil.
    + intros [|i] l Hi; cbn in Hi; try discriminate Hi.
      injection Hi as <-. reflexivity.
    + reflexivity.
    + reflexivity.
    + unfold commands. intros H.
      repeat (apply elem_of_cons in H as [H|H]; [discriminate H|]).
      by apply elem_of_nil in H.
    + cbn. lia.
  - exfalso. vm_compute in Hrun. discriminate Hrun.
Defined.

(** * Blocks closed by the empty line *)

(** X18: a block closed by the empty line always ends, since the end
    of the input reads as an empty line: for every parser there is a
    number [n] of lines before the first empty one, and with any fuel
    above [n] [read_block] yields these [n] lines, none of them empty,
    and stops on the empty line. *)
Theorem read_block_blank_line_ends (p : GitRemoteParser) :
  exists n,
    line_at n p = ""
    /\ (forall i, (i < n)%nat -> line_at i p <> "")
    /\ forall fuel, (n < fuel)%nat ->
         read_block fuel "" GenStart p
         = Some (map (fun i => line_at i p) (seq 0 n), snd (read_lines n p)).
Proof.
  destruct (empty_line_ahead p) as [m Hm].
  destruct (first_sentinel "" m p Hm) as (n & Hn & Hlt).
  exists n. split; [done|]. split; [done|].
  intros fuel Hfuel. destruct fuel as [|fuel]; [lia|].
  change (read_block (S fuel) "" GenStart p)
    with (match read_block_next "" GenStart p with
          | (None, _, p') => Some ([], p')
          | (Some l, g', p') =>
              match read_block fuel "" g' p' with
              | Some (ls, p'') => Some (l :: ls, p'')
              | None => None
              end
          end).
  cbn [read_block_next]. destruct n as [|n].
  - unfold line_at in Hn. cbn in Hn. by rewrite decide_True.
  - rewrite decide_False by (apply (Hlt 0%nat); lia).
    rewrite (read_block_resumed "" n p fuel); [done|done| |lia].
    intros i Hi. apply Hlt. lia.
Qed.

Lemma readline_line (l rest : string) :
  string_all (is_not Py.newline) l = true ->
  Py.readline (l +:+ String Py.newline rest)
  = (l +:+ String Py.newline "", rest).
Proof.
  intros H. induction l as [|c l IH].
  - change (Py.readline (String Py.newline rest)
            = (String Py.newline "", rest)).
    cbn [Py.readline]. by rewrite Ascii.eqb_refl.
  - cbn [string_all] in H. apply andb_true_iff in H as [Hc H].
    unfold is_not in Hc. apply negb_true_iff in Hc.
    change (Py.readline (String c (l +:+ String Py.newline rest))
            = (String c (l +:+ String Py.newline ""), rest)).
    cbn [Py.readline]. by rewrite Hc, (IH H).
Qed.

Lemma lstrip_spaces (s t : string) :
  string_all Py.isspace s = true -> Py.lstrip (s +:+ t) = Py.lstrip t.
Proof.
  intros H. induction s as [|c s IH]; [done|].
  cbn [string_all] in H. apply andb_true_iff in H as [Hc H].
  change (Py.lstrip (String c (s +:+ t)) = Py.lstrip t).
  cbn [Py.lstrip]. by rewrite Hc, (IH H).
Qed.

(** X19: a line of white space only is read as the empty line: with
    nothing buffered, [read_line] returns the empty string for it, which
    is what closes a block of commands. *)
Theorem read_line_blank (ws rest l0 : string) :
  string_all Py.isspace ws = true ->
  string_all (is_not Py.newline) ws = true ->
  read_line (mkParser [] l0 (ws +:+ String Py.newline rest))
  = ("", mkParser [] "" rest).
Proof.
  intros Hws Hnl. unfold read_line, stdin_readline. cbn [peek_stack stdin].
  rewrite (readline_line ws rest Hnl). unfold Py.strip.
  by rewrite (lstrip_spaces ws _ Hws).
Qed.

Lemma read_line_blank_witness :
  read_line (mkParser [] "list" ("   " +:+ String Py.newline "import x"))
  = ("", mkParser [] "" "import x").
Proof. apply (read_line_blank "   " "import x" "list"); reflexivity. Defined.

(** X20: the lookahead buffer is a queue whatever it holds: after [k]
    more calls of [peek], the following calls of [read_line] return
    first the lines that were buffered before, then the [k] lines just
    peeked, in the order of the [peek] calls, and the input is not read
    meanwhile. *)
Theorem peek_queue_order (k : nat) (p : GitRemoteParser) :
  read_lines (length (peek_stack p) + k) (snd (peeks k p))
  = (peek_stack p ++ fst (peeks k p),
     mkParser [] (List.last (peek_stack p ++ fst (peeks k p)) (line p))
       (stdin (snd (peeks k p))))
  /\ fst (peeks k p) = stdin_lines k (stdin p).
Proof.
  rewrite peeks_spec. cbn [fst snd]. split; [|done].
  pose proof (read_lines_drain (peek_stack p ++ stdin_lines k (stdin p)) []
                (line p) (stdin (snd (peeks k p)))) as H.
  by rewrite app_nil_r, length_app, stdin_lines_length in H.
Qed.
